(** * twilio-video-chat: the Video view and the router

    A shallow embedding of [src/views/Video.vue] (the component that joins a
    Twilio Video room and mirrors its participants into the DOM) and of the
    router's route table, with the properties of the specification proved
    over it.  The repository also holds an older copy of the component,
    from before the status message, the mute button and the container of
    the local participant; the router renders [src/views/Video.vue], which
    is the one embedded here.

    The page is event driven.  Every method of the component is a
    computation over one [World]: the component's data, the part of the
    document the component touches, the handlers it installs on [window] and
    [document], the variables captured by the closures of [createChat], and
    the SDK objects it talks to.  A JavaScript exception leaves the world as
    it was when it was thrown, so a computation ends in [Ret] or in [Throw],
    both carrying the world.

    The SDK (twilio-video) and the helper [isMobile] are not part of the
    sources.  [isMobile] is a parameter.  Of the SDK the embedding keeps
    the objects the page reads ([room.localParticipant],
    [room.participants], the publications and their tracks), the listeners
    the page registers on its emitters, and a log of the methods the page
    calls for their effect. *)

From Stdlib Require Import List String Bool Arith NArith.
Import ListNotations.
Open Scope string_scope.
Open Scope list_scope.

(* ===================================================================== *)
(** * SDK objects (twilio-video) *)
(* ===================================================================== *)

(** [track.kind]: ["audio"], ["video"] or ["data"]. *)
Inductive Kind := audio | video | datatrack.

Definition Kind_eqb (a b : Kind) : bool :=
  match a, b with
  | audio, audio | video, video | datatrack, datatrack => true
  | _, _ => false
  end.

(** A media track.  [name] stands for the object itself. *)
Record Track := { name : nat; kind : Kind }.

(** A track publication.  [track] is [None] for [null] (a remote
    publication not subscribed to).  [isTrackEnabled] is the flag that
    [track.enable()] and [track.disable()] set: every publication owns its
    track. *)
Record Publication := {
  trackSid : string;
  pkind : Kind;
  track : option Track;
  isTrackEnabled : bool
}.

(** A participant, local or remote.  [obj] is the identity of the JavaScript
    object, compared by [===]. *)
Record Participant := {
  obj : nat;
  identity : string;
  sid : string;
  tracks : list Publication
}.

Definition is_kind (k : Kind) (publication : Publication) : bool :=
  Kind_eqb (pkind publication) k.

(** [participant.audioTracks] and [participant.videoTracks] are the
    publications of [participant.tracks] of that kind, in the same order. *)
Definition audioTracks (p : Participant) : list Publication :=
  filter (is_kind audio) (tracks p).
Definition videoTracks (p : Participant) : list Publication :=
  filter (is_kind video) (tracks p).

Definition set_tracks (ts : list Publication) (p : Participant) : Participant :=
  {| obj := obj p; identity := identity p; sid := sid p; tracks := ts |}.

(** The room.  [participants] is the [Map] of the remote participants, in
    insertion order. *)
Record Room := {
  localParticipant : Participant;
  participants : list Participant
}.

Definition set_localParticipant (p : Participant) (r : Room) : Room :=
  {| localParticipant := p; participants := participants r |}.
Definition set_participants (ps : list Participant) (r : Room) : Room :=
  {| localParticipant := localParticipant r; participants := ps |}.

(** [participants.set(p.sid, p)] *)
Fixpoint Map_set (p : Participant) (ps : list Participant) : list Participant :=
  match ps with
  | [] => [p]
  | q :: ps' => if sid q =? sid p then p :: ps' else q :: Map_set p ps'
  end.

(** [participants.delete(sid)] *)
Definition Map_delete (s : string) (ps : list Participant) : list Participant :=
  filter (fun q => negb (sid q =? s)) ps.

Record VideoConstraints := { width : nat }.

Record ConnectOptions := {
  co_name : string;
  co_audio : bool;
  co_video : VideoConstraints
}.

Inductive JsError :=
| TypeError
| TwilioError (code : N).

(** The SDK methods the page calls for their effect only. *)
Inductive SdkCall :=
| RoomDisconnect
| TrackStop (t : Track)
| TrackAttach (t : Track) (container : string) (element : Kind)
| TrackDetach (t : Track) (container : string) (element : Kind)
| UnpublishTrack (t : Track)
| PublishTrack (t : Track)
| CreateLocalVideoTrack (c : VideoConstraints).

(* ===================================================================== *)
(** * The document *)
(* ===================================================================== *)

(** An [<audio>] or [<video>] element. *)
Record MediaElement := {
  tagName : Kind;
  autoplay : bool;
  muted : bool;
  playsinline : bool;
  opacity : string
}.

(** A participant's [<div>]. *)
Record Container := {
  id : string;
  className : string;
  dataIdentity : option string;
  children : list MediaElement
}.

(** [document.createElement(tag)] for a media tag. *)
Definition createElement (tag : Kind) : MediaElement :=
  {| tagName := tag; autoplay := false; muted := false;
     playsinline := false; opacity := "" |}.

(** [document.createElement("div")] *)
Definition createDiv : Container :=
  {| id := ""; className := ""; dataIdentity := None; children := [] |}.

Definition set_autoplay (b : bool) (e : MediaElement) : MediaElement :=
  {| tagName := tagName e; autoplay := b; muted := muted e;
     playsinline := playsinline e; opacity := opacity e |}.
Definition set_muted (b : bool) (e : MediaElement) : MediaElement :=
  {| tagName := tagName e; autoplay := autoplay e; muted := b;
     playsinline := playsinline e; opacity := opacity e |}.
Definition set_playsinline (b : bool) (e : MediaElement) : MediaElement :=
  {| tagName := tagName e; autoplay := autoplay e; muted := muted e;
     playsinline := b; opacity := opacity e |}.
Definition set_opacity (s : string) (e : MediaElement) : MediaElement :=
  {| tagName := tagName e; autoplay := autoplay e; muted := muted e;
     playsinline := playsinline e; opacity := s |}.

Definition set_id (s : string) (c : Container) : Container :=
  {| id := s; className := className c; dataIdentity := dataIdentity c;
     children := children c |}.
Definition set_className (s : string) (c : Container) : Container :=
  {| id := id c; className := s; dataIdentity := dataIdentity c;
     children := children c |}.
Definition set_dataIdentity (s : string) (c : Container) : Container :=
  {| id := id c; className := className c; dataIdentity := Some s;
     children := children c |}.
Definition set_children (es : list MediaElement) (c : Container) : Container :=
  {| id := id c; className := className c; dataIdentity := dataIdentity c;
     children := es |}.

(** [container.appendChild(element)] *)
Definition appendChild (e : MediaElement) (c : Container) : Container :=
  set_children (children c ++ [e]) c.

(* ===================================================================== *)
(** * The world of the component *)
(* ===================================================================== *)

(** The closures the page installs on [window] and [document]. *)
Inductive Handler :=
| LeaveRoom                                   (* () => { room.disconnect(); } *)
| VisibilityChange (c : VideoConstraints).    (* async () => { ... } *)

(** The closures the page registers on the SDK's event emitters: the first
    three on the room, [OnTrackPublished] on a participant, the last two on
    a publication (named by its track sid). *)
Inductive Listener :=
| OnParticipantConnected
| OnParticipantDisconnected
| OnceDisconnected
| OnTrackPublished (participant : Participant)
| OnSubscribed (publication : string) (participant : Participant)
| OnUnsubscribed (publication : string) (participant : Participant).

Inductive PromiseState :=
| Pending
| Resolved
| Rejected (reason : JsError).

(** The component's [data()]. *)
Record Data := {
  loading : bool;
  messages : list (string * string);
  messageState : string;
  room : option Room;
  roomName : string;
  userToken : string
}.

(** The part of the document the component reads and writes: the inline
    [display] of the [.message] element, the label of the [.toggle-mute]
    button and the containers appended to [#participants]. *)
Record Document := {
  messageDisplay : string;
  toggleMuteHTML : string;
  participantsEl : list Container;
  onvisibilitychange : option Handler
}.

Record Window := {
  onbeforeunload : option Handler;
  onpagehide : option Handler
}.

(** What the closures of [createChat] share: the variable
    [localVideoTrack], the promise [createChat] returns, and the number of
    [createLocalVideoTrack] calls still awaited. *)
Record Chat := {
  localVideoTrack : option Track;
  promise : PromiseState;
  awaited : nat
}.

Record Sdk := {
  listeners : list Listener;
  calls : list SdkCall
}.

Record World := {
  vm : Data;
  document : Document;
  window : Window;
  chat : Chat;
  sdk : Sdk
}.

Definition with_vm (f : Data -> Data) (w : World) : World :=
  {| vm := f (vm w); document := document w; window := window w;
     chat := chat w; sdk := sdk w |}.
Definition with_document (f : Document -> Document) (w : World) : World :=
  {| vm := vm w; document := f (document w); window := window w;
     chat := chat w; sdk := sdk w |}.
Definition with_window (f : Window -> Window) (w : World) : World :=
  {| vm := vm w; document := document w; window := f (window w);
     chat := chat w; sdk := sdk w |}.
Definition with_chat (f : Chat -> Chat) (w : World) : World :=
  {| vm := vm w; document := document w; window := window w;
     chat := f (chat w); sdk := sdk w |}.
Definition with_sdk (f : Sdk -> Sdk) (w : World) : World :=
  {| vm := vm w; document := document w; window := window w;
     chat := chat w; sdk := f (sdk w) |}.

Definition put_loading (b : bool) (d : Data) : Data :=
  {| loading := b; messages := messages d; messageState := messageState d;
     room := room d; roomName := roomName d; userToken := userToken d |}.
Definition put_messageState (s : string) (d : Data) : Data :=
  {| loading := loading d; messages := messages d; messageState := s;
     room := room d; roomName := roomName d; userToken := userToken d |}.
Definition put_room (r : option Room) (d : Data) : Data :=
  {| loading := loading d; messages := messages d;
     messageState := messageState d;
     room := r; roomName := roomName d; userToken := userToken d |}.

Definition put_messageDisplay (s : string) (d : Document) : Document :=
  {| messageDisplay := s; toggleMuteHTML := toggleMuteHTML d;
     participantsEl := participantsEl d;
     onvisibilitychange := onvisibilitychange d |}.
Definition put_toggleMuteHTML (s : string) (d : Document) : Document :=
  {| messageDisplay := messageDisplay d; toggleMuteHTML := s;
     participantsEl := participantsEl d;
     onvisibilitychange := onvisibilitychange d |}.
Definition put_participantsEl (cs : list Container) (d : Document) : Document :=
  {| messageDisplay := messageDisplay d; toggleMuteHTML := toggleMuteHTML d;
     participantsEl := cs;
     onvisibilitychange := onvisibilitychange d |}.
Definition put_onvisibilitychange (h : option Handler) (d : Document) : Document :=
  {| messageDisplay := messageDisplay d; toggleMuteHTML := toggleMuteHTML d;
     participantsEl := participantsEl d;
     onvisibilitychange := h |}.

Definition put_onbeforeunload (h : option Handler) (x : Window) : Window :=
  {| onbeforeunload := h; onpagehide := onpagehide x |}.
Definition put_onpagehide (h : option Handler) (x : Window) : Window :=
  {| onbeforeunload := onbeforeunload x; onpagehide := h |}.

Definition put_localVideoTrack (t : option Track) (c : Chat) : Chat :=
  {| localVideoTrack := t; promise := promise c; awaited := awaited c |}.
Definition put_promise (p : PromiseState) (c : Chat) : Chat :=
  {| localVideoTrack := localVideoTrack c; promise := p; awaited := awaited c |}.
Definition put_awaited (n : nat) (c : Chat) : Chat :=
  {| localVideoTrack := localVideoTrack c; promise := promise c; awaited := n |}.

Definition put_listeners (ls : list Listener) (s : Sdk) : Sdk :=
  {| listeners := ls; calls := calls s |}.
Definition put_calls (cs : list SdkCall) (s : Sdk) : Sdk :=
  {| listeners := listeners s; calls := cs |}.

(* ===================================================================== *)
(** * Computations: state and exceptions *)
(* ===================================================================== *)

Inductive Outcome (A : Type) :=
| Ret (a : A) (w : World)
| Throw (e : JsError) (w : World).

Arguments Ret {A} a w.
Arguments Throw {A} e w.

Definition M (A : Type) := World -> Outcome A.

(** The world a computation leaves behind, however it ends. *)
Definition world {A} (o : Outcome A) : World :=
  match o with
  | Ret _ w => w
  | Throw _ w => w
  end.

Definition ret {A} (a : A) : M A := fun w => Ret a w.
Definition throw {A} (e : JsError) : M A := fun w => Throw e w.
Definition bind {A B} (m : M A) (k : A -> M B) : M B :=
  fun w => match m w with
           | Ret a w' => k a w'
           | Throw e w' => Throw e w'
           end.
Definition gets {A} (f : World -> A) : M A := fun w => Ret (f w) w.
Definition modify (f : World -> World) : M unit := fun w => Ret tt (f w).

Declare Scope js_scope.
Delimit Scope js_scope with js.
Notation "x <- m ;; k" := (bind m (fun x => k))
  (at level 61, m at next level, right associativity) : js_scope.
Notation "m ;; k" := (bind m (fun _ => k))
  (at level 61, right associativity) : js_scope.
Open Scope js_scope.

(** [collection.forEach(f)] *)
Fixpoint forEach {A} (l : list A) (f : A -> M unit) : M unit :=
  match l with
  | [] => ret tt
  | x :: l' => f x ;; forEach l' f
  end.

(** [collection.forEach(f)] where [f] changes the state of the object it
    visits: [f] returns the object as it leaves it, which takes the place
    of the visited one (by [store]) before the next one is visited. *)
Fixpoint forEachMut {A} (store : list A -> World -> World)
    (visited rest : list A) (f : A -> M A) : M unit :=
  match rest with
  | [] => ret tt
  | x :: rest' =>
      x' <- f x ;;
      modify (store (visited ++ x' :: rest')) ;;
      forEachMut store (visited ++ [x']) rest' f
  end.

(** [this.room], or the [room] the closures of [createChat] captured: the
    same object.  Reading a property of [null] is a [TypeError]. *)
Definition this_room : M Room :=
  fun w => match room (vm w) with
           | Some r => Ret r w
           | None => Throw TypeError w
           end.

Definition call (c : SdkCall) : M unit :=
  modify (with_sdk (fun s => put_calls (calls s ++ [c]) s)).

(** [emitter.on(event, listener)] and [room.once("disconnected", ...)] *)
Definition on (l : Listener) : M unit :=
  modify (with_sdk (fun s => put_listeners (listeners s ++ [l]) s)).

(* ===================================================================== *)
(** * Selectors and node updates *)
(* ===================================================================== *)

Fixpoint update_nth {A} (n : nat) (f : A -> A) (l : list A) : list A :=
  match l, n with
  | [], _ => []
  | x :: l', 0 => f x :: l'
  | x :: l', S n' => x :: update_nth n' f l'
  end.

Fixpoint remove_nth {A} (n : nat) (l : list A) : list A :=
  match l, n with
  | [], _ => []
  | _ :: l', 0 => l'
  | x :: l', S n' => x :: remove_nth n' l'
  end.

(** The first container with the given id, by position. *)
Fixpoint index_of_id (s : string) (cs : list Container) : option nat :=
  match cs with
  | [] => None
  | c :: cs' => if id c =? s then Some 0 else option_map S (index_of_id s cs')
  end.

Fixpoint index_of_tag (k : Kind) (es : list MediaElement) : option nat :=
  match es with
  | [] => None
  | e :: es' =>
      if Kind_eqb (tagName e) k then Some 0 else option_map S (index_of_tag k es')
  end.

(** The first element, in document order, that has the given tag and whose
    parent has the given id. *)
Fixpoint index_of_media (s : string) (k : Kind) (cs : list Container)
    : option (nat * nat) :=
  match cs with
  | [] => None
  | c :: cs' =>
      match (if id c =? s then index_of_tag k (children c) else None) with
      | Some j => Some (0, j)
      | None =>
          option_map (fun ij => (S (fst ij), snd ij)) (index_of_media s k cs')
      end
  end.

(** [document.querySelector(`#${sid}`)]: a container, or [null].  The sids
    are the SDK's participant sids; none is the id of an element of the
    template. *)
Definition querySelector_id (s : string) : M (option nat) :=
  gets (fun w => index_of_id s (participantsEl (document w))).

(** [document.querySelector(`#${sid} > ${kind}`)] *)
Definition querySelector_media (s : string) (k : Kind) : M (option (nat * nat)) :=
  gets (fun w => index_of_media s k (participantsEl (document w))).

(** [media.style.opacity = value] *)
Definition set_style_opacity (media : option (nat * nat)) (value : string) : M unit :=
  match media with
  | None => throw TypeError
  | Some (i, j) =>
      modify (with_document (fun d =>
        put_participantsEl
          (update_nth i
             (fun c => set_children (update_nth j (set_opacity value) (children c)) c)
             (participantsEl d)) d))
  end.

(** [document.querySelector("#participants").removeChild(node)] *)
Definition removeChild (node : option nat) : M unit :=
  match node with
  | None => throw TypeError
  | Some i =>
      modify (with_document (fun d =>
        put_participantsEl (remove_nth i (participantsEl d)) d))
  end.

(** [document.querySelector(".message").style.display = value] *)
Definition set_message_display (value : string) : M unit :=
  modify (with_document (put_messageDisplay value)).

(** Lookup of a property of an object literal; [None] is [undefined]. *)
Fixpoint lookup (key : string) (o : list (string * string)) : option string :=
  match o with
  | [] => None
  | (k, v) :: o' => if k =? key then Some v else lookup key o'
  end.

(* ===================================================================== *)
(** * The component *)
(* ===================================================================== *)

Record Route := { query_room : string; query_sid : string }.

Definition data (route : Route) : Data :=
  {| loading := true;
     messages := [("waiting", "Waiting for participant...");
                  ("disconnect", "Participant left the call.")];
     messageState := "waiting";
     room := None;
     roomName := query_room route;
     userToken := query_sid route |}.

(** The computed property [message]. *)
Definition message (w : World) : option string :=
  lookup (messageState (vm w)) (messages (vm w)).

(** The component as it is when [created()] runs: the rendered template has
    no container, no inline style and the button reads [Mute]; nothing is
    installed on [window] or [document]. *)
Definition initial (route : Route) : World :=
  {| vm := data route;
     document := {| messageDisplay := ""; toggleMuteHTML := "Mute";
                    participantsEl := []; onvisibilitychange := None |};
     window := {| onbeforeunload := None; onpagehide := None |};
     chat := {| localVideoTrack := None; promise := Pending; awaited := 0 |};
     sdk := {| listeners := []; calls := [] |} |}.

Definition setupParticipantContainer (participant : Participant) (room : Room)
    (className : string) : M unit :=
  let container := createDiv in
  let container := set_id (sid participant) container in
  let container := set_className className container in
  let container := set_dataIdentity (identity participant) container in
  let audioEl := createElement audio in
  let audioEl := set_autoplay true audioEl in
  let audioEl :=
    set_muted (Nat.eqb (obj participant) (obj (localParticipant room))) audioEl in
  let audioEl := set_opacity "0" audioEl in
  let videoEl := createElement video in
  let videoEl := set_autoplay true videoEl in
  let videoEl := set_muted true videoEl in
  let videoEl := set_playsinline true videoEl in
  let videoEl := set_opacity "0" videoEl in
  let container := appendChild audioEl container in
  let container := appendChild videoEl container in
  (if negb (className =? "local") then set_message_display "none" else ret tt) ;;
  modify (with_document (fun d =>
    put_participantsEl (participantsEl d ++ [container]) d)).

Definition attachTrack (t : Track) (participant : Participant) : M unit :=
  media <- querySelector_media (sid participant) (kind t) ;;
  set_style_opacity media "" ;;
  call (TrackAttach t (sid participant) (kind t)).

Definition detachTrack (t : Track) (participant : Participant) : M unit :=
  media <- querySelector_media (sid participant) (kind t) ;;
  set_style_opacity media "0" ;;
  call (TrackDetach t (sid participant) (kind t)).

Definition trackPublished (publication : Publication) (participant : Participant)
    : M unit :=
  match track publication with
  | Some t => attachTrack t participant
  | None => ret tt
  end ;;
  on (OnSubscribed (trackSid publication) participant) ;;
  on (OnUnsubscribed (trackSid publication) participant).

Definition participantConnected (participant : Participant) (room : Room)
    (className : string) : M unit :=
  setupParticipantContainer participant room className ;;
  forEach (tracks participant)
    (fun publication => trackPublished publication participant) ;;
  on (OnTrackPublished participant).

Definition setMessage (messageState : string) : M unit :=
  modify (with_vm (put_messageState messageState)) ;;
  set_message_display "flex".

Definition participantDisconnected (participant : Participant) : M unit :=
  participantContainer <- querySelector_id (sid participant) ;;
  removeChild participantContainer ;;
  setMessage "disconnect".

(** [publication.track.disable()] and [publication.track.enable()] *)
Definition track_set_enabled (b : bool) (publication : Publication) : M Publication :=
  match track publication with
  | None => throw TypeError
  | Some _ =>
      ret {| trackSid := trackSid publication; pkind := pkind publication;
             track := track publication; isTrackEnabled := b |}
  end.

Definition set_toggleButton (html : string) : M unit :=
  modify (with_document (put_toggleMuteHTML html)).

(** Writes the local participant's publications back into [this.room]. *)
Definition store_local_tracks (ts : list Publication) (w : World) : World :=
  with_vm (fun d =>
    put_room
      (option_map
         (fun r => set_localParticipant (set_tracks ts (localParticipant r)) r)
         (room d)) d) w.

Definition toggleMute : M unit :=
  r <- this_room ;;
  forEachMut store_local_tracks [] (tracks (localParticipant r))
    (fun publication =>
       if is_kind audio publication then
         if isTrackEnabled publication then
           set_toggleButton "Unmute" ;;
           track_set_enabled false publication
         else
           set_toggleButton "Mute" ;;
           track_set_enabled true publication
       else ret publication).

(** [room.disconnect()] *)
Definition room_disconnect : M unit :=
  _ <- this_room ;;
  call RoomDisconnect.

Definition disconnect : M unit :=
  setMessage "disconnect" ;;
  room_disconnect.

(** [localVideoTrack.stop()] *)
Definition localVideoTrack_stop : M unit :=
  t <- gets (fun w => localVideoTrack (chat w)) ;;
  match t with
  | None => throw TypeError
  | Some t => call (TrackStop t)
  end.

(** A promise settles once. *)
Definition settle (p : PromiseState) : M unit :=
  modify (with_chat (fun c =>
    match promise c with
    | Pending => put_promise p c
    | _ => c
    end)).
Definition resolve : M unit := settle Resolved.
Definition reject (error : JsError) : M unit := settle (Rejected error).

(** A function object is truthy. *)
Definition truthy {A B} (f : A -> B) : bool := true.

(** What [await promise] yields once the promise has settled. *)
Definition await {A} (settled : JsError + A) : M A :=
  match settled with
  | inl e => throw e
  | inr a => ret a
  end.

(** [Array.from(room.localParticipant.videoTracks.values())[0].track] *)
Definition first_video_track (room : Room) : M (option Track) :=
  match videoTracks (localParticipant room) with
  | [] => throw TypeError
  | publication :: _ => ret (track publication)
  end.

(** What the environment delivers to the page: clicks on the two buttons,
    the events of [window] and [document], the resolution of an awaited
    [createLocalVideoTrack], and the events of the SDK's emitters. *)
Inductive Event :=
| ClickToggleMute
| ClickDisconnect
| Beforeunload
| Pagehide
| Visibilitychange (hidden : bool)
| LocalVideoTrackCreated (t : Track)
| RoomParticipantConnected (participant : Participant)
| RoomParticipantDisconnected (participant : Participant)
| RoomDisconnected (error : option JsError)
| TrackPublished (participant : Participant) (publication : Publication)
| Subscribed (publication : Publication) (t : Track)
| Unsubscribed (publication : Publication) (t : Track).

(** Removes the first [once] listener of the room's [disconnected] event. *)
Fixpoint off_disconnected (ls : list Listener) : list Listener :=
  match ls with
  | [] => []
  | OnceDisconnected :: ls' => ls'
  | l :: ls' => l :: off_disconnected ls'
  end.

(** What the SDK does to [room.participants] before it emits the event. *)
Definition sdk_update (e : Event) (r : Room) : Room :=
  match e with
  | RoomParticipantConnected p => set_participants (Map_set p (participants r)) r
  | RoomParticipantDisconnected p =>
      set_participants (Map_delete (sid p) (participants r)) r
  | _ => r
  end.

Section Page.

(** [isMobile], imported from [../utils/helpers]: the platform test. *)
Variable isMobile : unit -> bool.

(** The [visibilitychange] handler, up to its first [await]. *)
Definition onVisibilityChange (c : VideoConstraints) (hidden : bool) : M unit :=
  if hidden then
    localVideoTrack_stop ;;
    t <- gets (fun w => localVideoTrack (chat w)) ;;
    match t with
    | None => throw TypeError
    | Some t => call (UnpublishTrack t)
    end
  else
    call (CreateLocalVideoTrack c) ;;
    modify (with_chat (fun x => put_awaited (S (awaited x)) x)).

(** The [visibilitychange] handler, after [createLocalVideoTrack] resolved. *)
Definition onLocalVideoTrackCreated (t : Track) : M unit :=
  modify (with_chat (put_localVideoTrack (Some t))) ;;
  call (PublishTrack t).

(** The listener of the room's [disconnected] event. *)
Definition onDisconnected (error : option JsError) : M unit :=
  modify (with_window (put_onbeforeunload None)) ;;
  (if truthy isMobile then
     modify (with_window (put_onpagehide None)) ;;
     modify (with_document (put_onvisibilitychange None))
   else ret tt) ;;
  localVideoTrack_stop ;;
  room <- this_room ;;
  participantDisconnected (localParticipant room) ;;
  forEach (participants room)
    (fun participant => participantDisconnected participant) ;;
  match error with
  | Some e => reject e
  | None => resolve
  end.

(** The body of [createChat] from the point where [connect] has settled;
    [connected] is what [await connect(token, connectOptions)] yields. *)
Definition createChat (connected : JsError + Room) (connectOptions : ConnectOptions)
    : M unit :=
  room <- await connected ;;
  modify (with_vm (put_loading false)) ;;
  modify (with_vm (put_room (Some room))) ;;
  t <- first_video_track room ;;
  modify (with_chat (put_localVideoTrack t)) ;;
  participantConnected (localParticipant room) room "local" ;;
  forEach (participants room)
    (fun participant => participantConnected participant room "participant") ;;
  on OnParticipantConnected ;;
  on OnParticipantDisconnected ;;
  modify (with_window (put_onbeforeunload (Some LeaveRoom))) ;;
  (if isMobile tt then
     modify (with_window (put_onpagehide (Some LeaveRoom))) ;;
     modify (with_document
               (put_onvisibilitychange
                  (Some (VisibilityChange (co_video connectOptions)))))
   else ret tt) ;;
  on OnceDisconnected.

(** An [async] function returns a promise that is rejected when its body
    throws and otherwise follows the promise the body returns. *)
Definition async (body : M unit) (w : World) : World :=
  match body w with
  | Ret _ w' => w'
  | Throw e w' => with_chat (put_promise (Rejected e)) w'
  end.

Definition created (connected : JsError + Room) (w : World) : World :=
  let connectOptions :=
    {| co_name := roomName (vm w); co_audio := true;
       co_video := {| width := 400 |} |} in
  async (createChat connected connectOptions) w.

(** A handler of [window] or [document]; [hidden] is
    [document.visibilityState === "hidden"]. *)
Definition run_handler (h : option Handler) (hidden : bool) : M unit :=
  match h with
  | None => ret tt
  | Some LeaveRoom => room_disconnect
  | Some (VisibilityChange c) => onVisibilityChange c hidden
  end.

(** One registered listener, called for an event of its emitter. *)
Definition listener (l : Listener) (e : Event) : M unit :=
  match l, e with
  | OnParticipantConnected, RoomParticipantConnected participant =>
      room <- this_room ;;
      participantConnected participant room "participant"
  | OnParticipantDisconnected, RoomParticipantDisconnected participant =>
      participantDisconnected participant
  | OnceDisconnected, RoomDisconnected error =>
      modify (with_sdk (fun s => put_listeners (off_disconnected (listeners s)) s)) ;;
      onDisconnected error
  | OnTrackPublished participant, TrackPublished emitter publication =>
      if Nat.eqb (obj emitter) (obj participant)
      then trackPublished publication participant
      else ret tt
  | OnSubscribed s participant, Subscribed publication t =>
      if trackSid publication =? s then attachTrack t participant else ret tt
  | OnUnsubscribed s participant, Unsubscribed publication t =>
      if trackSid publication =? s then detachTrack t participant else ret tt
  | _, _ => ret tt
  end.

(** [emitter.emit(event)]: the listeners registered when the event is
    emitted are called in the order of their registration. *)
Definition emit (e : Event) : M unit :=
  ls <- gets (fun w => listeners (sdk w)) ;;
  forEach ls (fun l => listener l e).

Definition handle (e : Event) : M unit :=
  match e with
  | ClickToggleMute => toggleMute
  | ClickDisconnect => disconnect
  | Beforeunload =>
      h <- gets (fun w => onbeforeunload (window w)) ;;
      run_handler h false
  | Pagehide =>
      h <- gets (fun w => onpagehide (window w)) ;;
      run_handler h false
  | Visibilitychange hidden =>
      h <- gets (fun w => onvisibilitychange (document w)) ;;
      run_handler h hidden
  | LocalVideoTrackCreated t =>
      n <- gets (fun w => awaited (chat w)) ;;
      match n with
      | 0 => ret tt
      | S n' =>
          modify (with_chat (put_awaited n')) ;;
          onLocalVideoTrackCreated t
      end
  | _ =>
      modify (with_vm (fun d => put_room (option_map (sdk_update e) (room d)) d)) ;;
      emit e
  end.

(** The world after one event; an exception that reaches the event loop
    leaves the world as it was when it was thrown. *)
Definition fire (e : Event) (w : World) : World := world (handle e w).

Definition run (es : list Event) (w : World) : World := fold_left (fun w e => fire e w) es w.

End Page.

(* ===================================================================== *)
(** * The router *)
(* ===================================================================== *)

Module Router.

(** The two view components the route table imports. *)
Inductive View := Home | Video.

Record RouteConfig := {
  path : string;
  name : string;
  component : View
}.

Definition routes : list RouteConfig :=
  [ {| path := "/"; name := "home"; component := Home |};
    {| path := "/video"; name := "video"; component := Video |} ].

Record VueRouter := {
  mode : string;
  base : string;
  router_routes : list RouteConfig
}.

(** [BASE_URL] is [process.env.BASE_URL]. *)
Definition router (BASE_URL : string) : VueRouter :=
  {| mode := "history"; base := BASE_URL; router_routes := routes |}.

End Router.

(* ===================================================================== *)
(** * What the SDK guarantees *)
(* ===================================================================== *)

(** The sids of the participants of a room: the local one first. *)
Definition room_sids (r : Room) : list string :=
  sid (localParticipant r) :: map sid (participants r).

Definition without (s : string) (l : list string) : list string :=
  filter (fun x => negb (x =? s)) l.

Definition mem (s : string) (l : list string) : bool :=
  existsb (String.eqb s) l.

Fixpoint no_room_event (es : list Event) : bool :=
  match es with
  | [] => true
  | RoomParticipantConnected _ :: _ => false
  | RoomParticipantDisconnected _ :: _ => false
  | RoomDisconnected _ :: _ => false
  | _ :: es' => no_room_event es'
  end.

(** The room events the SDK emits for a room whose participants have the
    sids [connected] (the local one first): a participant that connects has
    a fresh sid, a participant that disconnects is a remote participant of
    the room, and [disconnected] is the room's last event. *)
Fixpoint sdk_trace (connected : list string) (es : list Event) : bool :=
  match es with
  | [] => true
  | RoomParticipantConnected p :: es' =>
      negb (mem (sid p) connected) && sdk_trace (connected ++ [sid p]) es'
  | RoomParticipantDisconnected p :: es' =>
      mem (sid p) (tl connected) && sdk_trace (without (sid p) connected) es'
  | RoomDisconnected _ :: es' => no_room_event es'
  | _ :: es' => sdk_trace connected es'
  end.

(** A room as [connect] resolves to it: the sids of its participants are
    distinct, and every publication of the local participant carries its
    track. *)
Definition sdk_room (r : Room) : Prop :=
  NoDup (room_sids r) /\
  Forall (fun publication => track publication <> None)
         (tracks (localParticipant r)).

(** The sids of the participants connected after the events [es]. *)
Fixpoint connected_after (connected : list string) (es : list Event) : list string :=
  match es with
  | [] => connected
  | RoomParticipantConnected p :: es' => connected_after (connected ++ [sid p]) es'
  | RoomParticipantDisconnected p :: es' =>
      connected_after (without (sid p) connected) es'
  | RoomDisconnected _ :: _ => []
  | _ :: es' => connected_after connected es'
  end.

(** The state of the promise of [createChat] after the events [es], when
    the promise was pending before them. *)
Fixpoint promise_after (es : list Event) : PromiseState :=
  match es with
  | [] => Pending
  | RoomDisconnected (Some e) :: _ => Rejected e
  | RoomDisconnected None :: _ => Resolved
  | _ :: es' => promise_after es'
  end.

(** The ids of the containers in [#participants], in document order. *)
Definition container_ids (w : World) : list string :=
  map id (participantsEl (document w)).

Definition is_room_listener (l : Listener) : bool :=
  match l with
  | OnParticipantConnected | OnParticipantDisconnected | OnceDisconnected => true
  | _ => false
  end.

Definition room_listeners (w : World) : list Listener :=
  filter is_room_listener (listeners (sdk w)).

(** What [track.disable()] and [track.enable()] make of an audio
    publication in [toggleMute]. *)
Definition toggled (publication : Publication) : Publication :=
  {| trackSid := trackSid publication; pkind := pkind publication;
     track := track publication;
     isTrackEnabled := negb (isTrackEnabled publication) |}.

(** The callback of [toggleMute], as a function on publications. *)
Definition toggle_audio (publication : Publication) : Publication :=
  if is_kind audio publication then toggled publication else publication.

(** The room with the publications of its local participant replaced. *)
Definition with_local_tracks (ts : list Publication) (r : Room) : Room :=
  set_localParticipant (set_tracks ts (localParticipant r)) r.

(* ===================================================================== *)
(** * Relations between worlds and the invariant of a session *)
(* ===================================================================== *)

(** [keeps R m]: the world [m] leaves behind, whether it returns or throws,
    is related by [R] to the world it started in. *)
Definition keeps (R : World -> World -> Prop) {A} (m : M A) : Prop :=
  forall w, R w (world (m w)).

(** [same f]: the computation does not change what [f] observes. *)
Definition same {A} (f : World -> A) (w w' : World) : Prop := f w' = f w.

(** The variable [localVideoTrack], once it holds a track, holds one. *)
Definition track_stays (w w' : World) : Prop :=
  localVideoTrack (chat w) <> None -> localVideoTrack (chat w') <> None.

(** The message state stays as it is or becomes ["disconnect"]; the table
    of messages is never written. *)
Definition message_step (w w' : World) : Prop :=
  messages (vm w') = messages (vm w) /\
  (messageState (vm w') = messageState (vm w) \/
   messageState (vm w') = "disconnect").

(** What the frame lemmas observe. *)
Definition the_promise (w : World) : PromiseState := promise (chat w).
Definition the_sids (w : World) : option (list string) :=
  option_map room_sids (room (vm w)).
Definition the_handlers (w : World) : option Handler * option Handler * option Handler :=
  (onbeforeunload (window w), onpagehide (window w), onvisibilitychange (document w)).

Definition room_held (w : World) : bool :=
  match room (vm w) with
  | Some _ => true
  | None => false
  end.

Definition is_room_event (e : Event) : bool :=
  match e with
  | RoomParticipantConnected _ | RoomParticipantDisconnected _
  | RoomDisconnected _ => true
  | _ => false
  end.

(** The world of a running session whose participants have the sids
    [sids]: the room is held, every participant has its container, the
    three listeners of the room are registered once, the local video track
    is held and the promise is pending. *)
Record live (sids : list string) (w : World) : Prop := {
  live_sids : the_sids w = Some sids;
  live_ids : container_ids w = sids;
  live_listeners :
    room_listeners w =
    [OnParticipantConnected; OnParticipantDisconnected; OnceDisconnected];
  live_track : localVideoTrack (chat w) <> None;
  live_promise : promise (chat w) = Pending;
  live_nodup : NoDup sids
}.

(** The SDK's update of [room.participants] for an event. *)
Definition sdk_updated (e : Event) (w : World) : World :=
  with_vm (fun d => put_room (option_map (sdk_update e) (room d)) d) w.

(** The room's [disconnected] event is not among the events. *)
Fixpoint no_disconnected (es : list Event) : bool :=
  match es with
  | [] => true
  | RoomDisconnected _ :: _ => false
  | _ :: es' => no_disconnected es'
  end.

(** A sample session: alice joins a room where bob already is. *)
Definition mic : Publication :=
  {| trackSid := "MT1"; pkind := audio;
     track := Some {| name := 1; kind := audio |}; isTrackEnabled := true |}.
Definition cam : Publication :=
  {| trackSid := "MT2"; pkind := video;
     track := Some {| name := 2; kind := video |}; isTrackEnabled := true |}.
Definition alice : Participant :=
  {| obj := 0; identity := "alice"; sid := "PA1"; tracks := [mic; cam] |}.
Definition bob : Participant :=
  {| obj := 1; identity := "bob"; sid := "PA2";
     tracks := [ {| trackSid := "MT3"; pkind := audio;
                    track := Some {| name := 3; kind := audio |};
                    isTrackEnabled := true |};
                 {| trackSid := "MT4"; pkind := video; track := None;
                    isTrackEnabled := true |} ] |}.
Definition carol : Participant :=
  {| obj := 2; identity := "carol"; sid := "PA3"; tracks := [] |}.
Definition lobby : Room :=
  {| localParticipant := alice; participants := [bob] |}.
Definition lobby_route : Route :=
  {| query_room := "lobby"; query_sid := "token" |}.
Definition lobby_options : ConnectOptions :=
  {| co_name := "lobby"; co_audio := true; co_video := {| width := 400 |} |}.
Definition on_phone (_ : unit) : bool := true.
Definition on_desktop (_ : unit) : bool := false.

(* ===================================================================== *)
(** * Observations used by the further properties *)
(* ===================================================================== *)

(** The ids left when the first occurrence of [s] goes. *)
Fixpoint remove_first (s : string) (l : list string) : list string :=
  match l with
  | [] => []
  | x :: l' => if x =? s then l' else x :: remove_first s l'
  end.

(** The element at a position of the document. *)
Definition media_at (ij : nat * nat) (cs : list Container) : option MediaElement :=
  match nth_error cs (fst ij) with
  | Some c => nth_error (children c) (snd ij)
  | None => None
  end.

(** The inline opacity of the element that [`#${s} > ${k}`] selects. *)
Definition opacity_of (s : string) (k : Kind) (w : World) : option string :=
  match index_of_media s k (participantsEl (document w)) with
  | Some ij => option_map opacity (media_at ij (participantsEl (document w)))
  | None => None
  end.

(** The handlers that only a mobile platform gets stay off. *)
Definition stays_off (w w' : World) : Prop :=
  onpagehide (window w) = None /\ onvisibilitychange (document w) = None ->
  onpagehide (window w') = None /\ onvisibilitychange (document w') = None.

(** Why [createChat] does not get to return its promise, if it does not
    for one of these two reasons: [connect] rejected, or the local
    participant has no video publication. *)
Definition setup_error (connected : JsError + Room) : option JsError :=
  match connected with
  | inl e => Some e
  | inr r =>
      match videoTracks (localParticipant r) with
      | [] => Some TypeError
      | _ :: _ => None
      end
  end.

(** The label [toggleMute] leaves on the button, visiting the audio
    publications [pubs] in order. *)
Definition label_after (label : string) (pubs : list Publication) : string :=
  fold_left (fun _ publication =>
               if isTrackEnabled publication then "Unmute" else "Mute")
            pubs label.

(** The publication carries a subscribed track of kind [k]. *)
Definition carries (k : Kind) (publication : Publication) : bool :=
  match track publication with
  | Some t => Kind_eqb k (kind t)
  | None => false
  end.

(** The publication carries no subscribed data track. *)
Definition media_only (publication : Publication) : bool :=
  negb (carries datatrack publication).

(** The listeners [trackPublished] registers on a publication. *)
Definition registrations (participant : Participant) (publication : Publication)
    : list Listener :=
  [OnSubscribed (trackSid publication) participant;
   OnUnsubscribed (trackSid publication) participant].

(** The listener is not registered on the publication with track sid [s]. *)
Definition not_on (s : string) (l : Listener) : bool :=
  match l with
  | OnSubscribed s' _ | OnUnsubscribed s' _ => negb (s' =? s)
  | _ => true
  end.

(** The event a publication emits when it is subscribed to ([sub] true) or
    unsubscribed from. *)
Definition publication_event (sub : bool) (publication : Publication) (t : Track)
    : Event :=
  if sub then Subscribed publication t else Unsubscribed publication t.

(** The listener is not registered on the participant object [o]. *)
Definition not_emitter (o : nat) (l : Listener) : bool :=
  match l with
  | OnTrackPublished q => negb (Nat.eqb o (obj q))
  | _ => true
  end.

(** The events of the SDK's emitters. *)
Definition is_sdk_event (e : Event) : bool :=
  match e with
  | RoomParticipantConnected _ | RoomParticipantDisconnected _
  | RoomDisconnected _ | TrackPublished _ _ | Subscribed _ _
  | Unsubscribed _ _ => true
  | _ => false
  end.

(** The page after a setup that failed: nothing registered, nothing
    installed, no container, the promise rejected. *)
Record dead (e : JsError) (w : World) : Prop := {
  dead_listeners : listeners (sdk w) = [];
  dead_ids : container_ids w = [];
  dead_handlers : the_handlers w = (None, None, None);
  dead_promise : promise (chat w) = Rejected e
}.

(** Once the message is shown with the state ["disconnect"], it stays so. *)
Definition message_shown (w w' : World) : Prop :=
  messageDisplay (document w) = "flex" /\ messageState (vm w) = "disconnect" ->
  messageDisplay (document w') = "flex" /\ messageState (vm w') = "disconnect".

(** The display of the message and its text. *)
Definition the_message (w : World) : string * option string :=
  (messageDisplay (document w), message w).

(** The events that show the status message, and the one that hides it. *)
Definition shows_message (e : Event) : bool :=
  match e with
  | ClickDisconnect | RoomParticipantDisconnected _ | RoomDisconnected _ => true
  | _ => false
  end.

Definition hides_message (e : Event) : bool :=
  match e with
  | RoomParticipantConnected _ => true
  | _ => false
  end.

(** The containers with the opacity of one element set. *)
Definition with_opacity (ij : nat * nat) (v : string) (cs : list Container)
    : list Container :=
  update_nth (fst ij)
    (fun c => set_children (update_nth (snd ij) (set_opacity v) (children c)) c) cs.

(* ===================================================================== *)
(** * Basic facts *)
(* ===================================================================== *)

Lemma bind_Ret {A B} {m : M A} (k : A -> M B) {w a w1} :
  m w = Ret a w1 -> bind m k w = k a w1.
Proof. unfold bind; intros ->; reflexivity. Qed.

(** A sequence that returns has returned from its first part. *)
Lemma bind_inv {A B} (m : M A) (k : A -> M B) w b w' :
  bind m k w = Ret b w' -> exists a w1, m w = Ret a w1 /\ k a w1 = Ret b w'.
Proof.
  unfold bind; destruct (m w) as [a w1|e w1]; intros H.
  - now exists a, w1.
  - discriminate.
Qed.

Lemma world_bind {A B} (m : M A) (k : A -> M B) w :
  world (bind m k w) =
  match m w with
  | Ret a w1 => world (k a w1)
  | Throw _ w1 => w1
  end.
Proof. unfold bind; now destruct (m w). Qed.

Lemma index_of_id_snoc s cs c :
  id c = s -> index_of_id s (cs ++ [c]) <> None.
Proof.
  intros Hc; induction cs as [|a cs IH]; cbn.
  - rewrite Hc, String.eqb_refl; discriminate.
  - destruct (id a =? s); [discriminate|].
    destruct (index_of_id s (cs ++ [c])); [discriminate|congruence].
Qed.

(** The container [setupParticipantContainer] builds. *)
Lemma setupParticipantContainer_Ret participant room className w :
  setupParticipantContainer participant room className w =
  Ret tt
    (with_document (fun d =>
       put_participantsEl
         (participantsEl d ++
          [{| id := sid participant; className := className;
              dataIdentity := Some (identity participant);
              children :=
                [{| tagName := audio; autoplay := true;
                    muted := Nat.eqb (obj participant) (obj (localParticipant room));
                    playsinline := false; opacity := "0" |};
                 {| tagName := video; autoplay := true; muted := true;
                    playsinline := true; opacity := "0" |}] |}]) d)
       (if negb (className =? "local")
        then with_document (put_messageDisplay "none") w else w)).
Proof.
  unfold setupParticipantContainer.
  destruct (negb (className =? "local")); reflexivity.
Qed.

(* ===================================================================== *)
(** * The containers [setupParticipantContainer] builds *)
(* ===================================================================== *)

(** C2. Every run of [setupParticipantContainer] returns and appends exactly
    one container to [#participants], leaving the containers already there
    as they were; the id of the new container is the participant's sid, so
    a selector on that sid finds a container; and the new container has
    exactly two children, an [<audio>] element followed by a [<video>]
    element. *)
Theorem setupParticipantContainer_one_container participant room className w :
  exists container w',
    setupParticipantContainer participant room className w = Ret tt w' /\
    participantsEl (document w') = participantsEl (document w) ++ [container] /\
    id container = sid participant /\
    index_of_id (sid participant) (participantsEl (document w')) <> None /\
    map tagName (children container) = [audio; video].
Proof.
  rewrite setupParticipantContainer_Ret.
  eexists; eexists; split; [reflexivity|].
  assert (Hdoc : participantsEl
             (document (if negb (className =? "local")
                        then with_document (put_messageDisplay "none") w
                        else w)) = participantsEl (document w))
    by (destruct (negb (className =? "local")); reflexivity).
  cbn. rewrite Hdoc.
  repeat split; try reflexivity.
  now apply index_of_id_snoc.
Qed.

(** C9. In the container [setupParticipantContainer] builds, the [<video>]
    element is muted, the [<audio>] element is muted exactly when the
    participant is the room's local participant (the same object), and both
    elements have opacity 0 and autoplay on. *)
Theorem setupParticipantContainer_media_flags participant room className w :
  exists container audioEl videoEl,
    participantsEl
      (document (world (setupParticipantContainer participant room className w))) =
    participantsEl (document w) ++ [container] /\
    children container = [audioEl; videoEl] /\
    tagName audioEl = audio /\ tagName videoEl = video /\
    muted videoEl = true /\
    (muted audioEl = true <-> obj participant = obj (localParticipant room)) /\
    opacity audioEl = "0" /\ opacity videoEl = "0" /\
    autoplay audioEl = true /\ autoplay videoEl = true.
Proof.
  rewrite setupParticipantContainer_Ret.
  eexists; eexists; eexists.
  split.
  - cbn. destruct (negb (className =? "local")); reflexivity.
  - cbn. repeat split; try reflexivity.
    + apply Nat.eqb_eq.
    + apply Nat.eqb_eq.
Qed.

(* ===================================================================== *)
(** * The route table *)
(* ===================================================================== *)

(** C10. The route table has exactly two entries: path [/], named [home],
    rendering [Home], and path [/video], named [video], rendering [Video];
    the router is built on that table. *)
Theorem router_maps_two_pages :
  List.length Router.routes = 2 /\
  (forall r, In r Router.routes <->
     r = {| Router.path := "/"; Router.name := "home";
            Router.component := Router.Home |} \/
     r = {| Router.path := "/video"; Router.name := "video";
            Router.component := Router.Video |}) /\
  (forall BASE_URL, Router.router_routes (Router.router BASE_URL) = Router.routes).
Proof.
  split; [reflexivity|]. split; [|reflexivity].
  intros r; simpl; split.
  - intros [H|[H|[]]]; subst; auto.
  - intros [H|H]; subst; auto.
Qed.

(* ===================================================================== *)
(** * What a computation leaves alone *)
(* ===================================================================== *)

Section Keeps.

Variable R : World -> World -> Prop.
Hypothesis R_refl : forall w, R w w.
Hypothesis R_trans : forall a b c, R a b -> R b c -> R a c.

Lemma keeps_ret A (a : A) : keeps R (ret a).
Proof. intros w; apply R_refl. Qed.

Lemma keeps_throw A e : keeps R (@throw A e).
Proof. intros w; apply R_refl. Qed.

Lemma keeps_gets A (f : World -> A) : keeps R (gets f).
Proof. intros w; apply R_refl. Qed.

Lemma keeps_this_room : keeps R this_room.
Proof. intros w; unfold this_room; destruct (room (vm w)); apply R_refl. Qed.

Lemma keeps_modify f : (forall w, R w (f w)) -> keeps R (modify f).
Proof. intros H w; apply H. Qed.

Lemma keeps_bind A B (m : M A) (k : A -> M B) :
  keeps R m -> (forall a, keeps R (k a)) -> keeps R (bind m k).
Proof.
  intros Hm Hk w. rewrite world_bind.
  specialize (Hm w). destruct (m w) as [a w1|e w1]; simpl in *.
  - eapply R_trans; [exact Hm|apply Hk].
  - exact Hm.
Qed.

Lemma keeps_forEach A (l : list A) (f : A -> M unit) :
  (forall x, keeps R (f x)) -> keeps R (forEach l f).
Proof.
  intros Hf; induction l as [|x l IH]; simpl.
  - apply keeps_ret.
  - apply keeps_bind; auto.
Qed.

Lemma keeps_forEachMut A store (visited rest : list A) (f : A -> M A) :
  (forall x, keeps R (f x)) -> (forall l w, R w (store l w)) ->
  keeps R (forEachMut store visited rest f).
Proof.
  intros Hf Hs; revert visited; induction rest as [|x rest IH]; intros visited; simpl.
  - apply keeps_ret.
  - apply keeps_bind; [apply Hf|intros x'].
    apply keeps_bind; [apply keeps_modify; intros w; apply Hs|intros _; apply IH].
Qed.

End Keeps.

Lemma same_refl A (f : World -> A) w : same f w w.
Proof. reflexivity. Qed.

Lemma same_trans A (f : World -> A) a b c : same f a b -> same f b c -> same f a c.
Proof. unfold same; congruence. Qed.

Lemma track_stays_refl w : track_stays w w.
Proof. unfold track_stays; auto. Qed.

Lemma track_stays_trans a b c : track_stays a b -> track_stays b c -> track_stays a c.
Proof. unfold track_stays; auto. Qed.

Lemma message_step_refl w : message_step w w.
Proof. unfold message_step; auto. Qed.

Lemma message_step_trans a b c :
  message_step a b -> message_step b c -> message_step a c.
Proof.
  unfold message_step; intros [Hm1 H1] [Hm2 H2]; split; [congruence|].
  destruct H2 as [H2|H2]; [rewrite H2; exact H1|now right].
Qed.

Create HintDb keeps.

#[local] Hint Resolve same_refl same_trans track_stays_refl track_stays_trans
  message_step_refl message_step_trans : keeps.

(** Structural steps of a [keeps] proof; the leaves are left to [leaf]. *)
Ltac keeps_step leaf :=
  first
    [ apply keeps_ret; solve [auto with keeps]
    | apply keeps_throw; solve [auto with keeps]
    | apply keeps_gets; solve [auto with keeps]
    | apply keeps_this_room; solve [auto with keeps]
    | solve [auto with keeps]
    | apply keeps_bind; [solve [eauto with keeps] | | intro]
    | apply keeps_forEach; [solve [auto with keeps] | solve [eauto with keeps] | intro]
    | apply keeps_forEachMut;
        [solve [auto with keeps] | solve [eauto with keeps] | intro | intros; solve [leaf]]
    | apply keeps_modify; intro; solve [leaf]
    | match goal with
      | |- keeps _ (match ?x with _ => _ end) => destruct x
      | |- keeps _ (if ?x then _ else _) => destruct x
      end ].

Ltac page_unfold :=
  unfold createChat, await, first_video_track,
    handle, emit, listener, run_handler, onDisconnected, onVisibilityChange,
    onLocalVideoTrackCreated, disconnect, room_disconnect, toggleMute,
    participantDisconnected, participantConnected, trackPublished,
    attachTrack, detachTrack, setMessage, localVideoTrack_stop,
    track_set_enabled, set_toggleButton, set_message_display,
    querySelector_id, querySelector_media, call, resolve, reject, settle,
    set_style_opacity, removeChild, on, setupParticipantContainer.

Lemma update_nth_map_id i (g : Container -> list MediaElement) cs :
  map id (update_nth i (fun c => set_children (g c) c) cs) = map id cs.
Proof.
  revert i; induction cs as [|c cs IH]; intros [|i]; simpl; try reflexivity.
  now rewrite IH.
Qed.

Lemma room_listeners_on l w :
  is_room_listener l = false ->
  filter is_room_listener (listeners (sdk w) ++ [l]) = room_listeners w.
Proof.
  intros H. rewrite filter_app. simpl. rewrite H. apply app_nil_r.
Qed.

Ltac leaf :=
  unfold same, track_stays, message_step, the_promise, the_sids, the_handlers,
    room_held, container_ids, room_listeners;
  cbn;
  solve [ reflexivity | auto | congruence
        | apply f_equal; apply update_nth_map_id
        | apply update_nth_map_id
        | apply room_listeners_on; reflexivity
        | match goal with
          | |- context [room (vm ?w)] => destruct (room (vm w)); reflexivity
          end ].

Ltac page_keeps := repeat first [keeps_step leaf | progress page_unfold].

(* ===================================================================== *)
(** * Frames of the methods and of the event handlers *)
(* ===================================================================== *)

Section Frames.

Variable isMobile : unit -> bool.

Lemma participantConnected_vm participant room className :
  keeps (same vm) (participantConnected participant room className).
Proof. page_keeps. Qed.

Lemma participantConnected_chat participant room className :
  keeps (same chat) (participantConnected participant room className).
Proof. page_keeps. Qed.

Lemma participantConnected_room_listeners participant room className :
  keeps (same room_listeners) (participantConnected participant room className).
Proof. page_keeps. Qed.

Lemma trackPublished_container_ids publication participant :
  keeps (same container_ids) (trackPublished publication participant).
Proof. page_keeps. Qed.

Lemma handle_message_step e : keeps message_step (handle isMobile e).
Proof. destruct e; page_keeps. Qed.

Lemma createChat_message_step connected connectOptions :
  keeps message_step (createChat isMobile connected connectOptions).
Proof. page_keeps. Qed.

Lemma handle_container_ids e :
  is_room_event e = false -> keeps (same container_ids) (handle isMobile e).
Proof. destruct e; try discriminate; intros _; page_keeps. Qed.

Lemma handle_sids e :
  is_room_event e = false -> keeps (same the_sids) (handle isMobile e).
Proof. destruct e; try discriminate; intros _; page_keeps. Qed.

Lemma handle_room_listeners e :
  is_room_event e = false -> keeps (same room_listeners) (handle isMobile e).
Proof. destruct e; try discriminate; intros _; page_keeps. Qed.

Lemma handle_promise e :
  is_room_event e = false -> keeps (same the_promise) (handle isMobile e).
Proof. destruct e; try discriminate; intros _; page_keeps. Qed.

Lemma handle_room_held e : keeps (same room_held) (handle isMobile e).
Proof. destruct e; page_keeps. Qed.

Lemma handle_handlers e :
  no_disconnected [e] = true -> keeps (same the_handlers) (handle isMobile e).
Proof. destruct e; try discriminate; intros _; page_keeps. Qed.

Lemma handle_track_stays e :
  is_room_event e = false -> keeps track_stays (handle isMobile e).
Proof. destruct e; try discriminate; intros _; page_keeps. Qed.

End Frames.

(* ===================================================================== *)
(** * The handlers on [window] and [document] after [disconnected] *)
(* ===================================================================== *)

Lemma bind_modify {B} f (k : unit -> M B) w : bind (modify f) k w = k tt (f w).
Proof. reflexivity. Qed.

Lemma bind_bind {A B C} (m : M A) (k : A -> M B) (h : B -> M C) w :
  bind (bind m k) h w = bind m (fun a => bind (k a) h) w.
Proof. unfold bind; now destruct (m w). Qed.

Lemma teardown_tail_handlers error :
  keeps (same the_handlers)
    (localVideoTrack_stop ;;
     room <- this_room ;;
     participantDisconnected (localParticipant room) ;;
     forEach (participants room)
       (fun participant => participantDisconnected participant) ;;
     match error with
     | Some e => reject e
     | None => resolve
     end).
Proof. page_keeps. Qed.

(** C5. Whatever the platform test [isMobile] answers, and whatever the
    world and the error, once the listener of the room's [disconnected]
    event has run (to its end or to an exception), [window.onbeforeunload],
    [window.onpagehide] and [document.onvisibilitychange] are all [null]:
    the listener tests the function [isMobile] itself, which is truthy. *)
Theorem disconnected_clears_all_handlers (isMobile : unit -> bool) error w :
  let w' := world (onDisconnected isMobile error w) in
  onbeforeunload (window w') = None /\
  onpagehide (window w') = None /\
  onvisibilitychange (document w') = None.
Proof.
  unfold onDisconnected.
  cbv beta iota delta [truthy].
  rewrite bind_modify, bind_bind, bind_modify, bind_modify.
  match goal with
  | |- context [world (?m ?w0)] =>
      pose proof (teardown_tail_handlers error w0) as H
  end.
  unfold same, the_handlers in H. cbn in H.
  cbv zeta.
  injection H as H1 H2 H3.
  repeat split; assumption.
Qed.

(* ===================================================================== *)
(** * The status message *)
(* ===================================================================== *)

Lemma run_cons isMobile e es w :
  run isMobile (e :: es) w = run isMobile es (fire isMobile e w).
Proof. reflexivity. Qed.

Lemma run_app isMobile es1 es2 w :
  run isMobile (es1 ++ es2) w = run isMobile es2 (run isMobile es1 w).
Proof. unfold run; apply fold_left_app. Qed.

Lemma run_message_step isMobile es w : message_step w (run isMobile es w).
Proof.
  revert w; induction es as [|e es IH]; intros w.
  - apply message_step_refl.
  - rewrite run_cons. eapply message_step_trans; [|apply IH].
    apply handle_message_step.
Qed.

Lemma created_message_step isMobile connected w :
  message_step w (created isMobile connected w).
Proof.
  unfold created, async.
  match goal with
  | |- context [createChat isMobile connected ?o w] =>
      pose proof (createChat_message_step isMobile connected o w) as H;
      destruct (createChat isMobile connected o w)
  end; exact H.
Qed.

(** C7. The message state is ["waiting"] when the component is created;
    every event leaves it as it is or sets it to ["disconnect"]
    ([setMessage] is only called with ["disconnect"], by [disconnect] and
    by [participantDisconnected]); so in every world the page reaches it is
    one of the two, and the displayed message is the text the table gives
    for it. *)
Theorem message_state_waiting_or_disconnect
    (isMobile : unit -> bool) route connected es :
  let w := run isMobile es (created isMobile connected (initial route)) in
  messageState (data route) = "waiting" /\
  (messageState (vm w) = "waiting" \/ messageState (vm w) = "disconnect") /\
  message w =
    Some (if messageState (vm w) =? "waiting"
          then "Waiting for participant..."
          else "Participant left the call.") /\
  (forall e w0,
     messageState (vm (fire isMobile e w0)) = messageState (vm w0) \/
     messageState (vm (fire isMobile e w0)) = "disconnect") /\
  (forall w0, messageState (vm (world (disconnect w0))) = "disconnect") /\
  (forall participant w0,
     match participantDisconnected participant w0 with
     | Ret _ w1 => messageState (vm w1) = "disconnect"
     | Throw _ w1 => messageState (vm w1) = messageState (vm w0)
     end).
Proof.
  intros w.
  assert (Hw : message_step (initial route) w).
  { eapply message_step_trans;
      [apply created_message_step|apply run_message_step]. }
  destruct Hw as [Hm Hs]. cbn in Hm, Hs.
  split; [reflexivity|]. split; [tauto|]. split.
  { unfold message. rewrite Hm. destruct Hs as [-> | ->]; reflexivity. }
  split.
  { intros e w0. apply (handle_message_step isMobile e w0). }
  split.
  { intros w0. unfold disconnect. rewrite world_bind.
    change (setMessage "disconnect" w0)
      with (Ret tt (with_document (put_messageDisplay "flex")
                      (with_vm (put_messageState "disconnect") w0))).
    cbv iota beta.
    assert (H : keeps (same vm) room_disconnect) by page_keeps.
    match goal with |- context [world (room_disconnect ?x)] => rewrite (H x) end.
    reflexivity. }
  intros participant w0. unfold participantDisconnected, querySelector_id.
  unfold bind at 1. unfold gets.
  destruct (index_of_id (sid participant) (participantsEl (document w0)));
    reflexivity.
Qed.

(* ===================================================================== *)
(** * The local video track *)
(* ===================================================================== *)

(** C4. The unguarded read of the first entry of
    [room.localParticipant.videoTracks] yields a result exactly when the
    local participant has a video publication: then it is the track of the
    first one.  With no video publication the read is a [TypeError], which
    [createChat] does not catch: [createChat] stops there, having only set
    [loading] and [room], and its promise is rejected with that error. *)
Theorem first_video_track_needs_a_publication
    (isMobile : unit -> bool) room connectOptions w :
  ((exists t, first_video_track room w = Ret t w) <->
   videoTracks (localParticipant room) <> []) /\
  (first_video_track room w = Throw TypeError w <->
   videoTracks (localParticipant room) = []) /\
  match videoTracks (localParticipant room) with
  | publication :: _ => first_video_track room w = Ret (track publication) w
  | [] =>
      createChat isMobile (inr room) connectOptions w =
        Throw TypeError
          (with_vm (put_room (Some room)) (with_vm (put_loading false) w)) /\
      promise (chat (created isMobile (inr room) w)) = Rejected TypeError
  end.
Proof.
  unfold created, async, createChat, first_video_track.
  destruct (videoTracks (localParticipant room)) as [|publication rest] eqn:Hv.
  - split; [|split].
    + split; [intros [t Ht]; discriminate|congruence].
    + split; reflexivity.
    + cbn. unfold bind; cbn. rewrite Hv. split; reflexivity.
  - split; [|split].
    + split; [discriminate|intros _; eexists; reflexivity].
    + split; discriminate.
    + reflexivity.
Qed.

(* ===================================================================== *)
(** * Mute *)
(* ===================================================================== *)

Lemma with_local_tracks_same r : with_local_tracks (tracks (localParticipant r)) r = r.
Proof. destruct r as [[o i s ts] ps]; reflexivity. Qed.

Lemma with_local_tracks_twice ts ts' r :
  with_local_tracks ts (with_local_tracks ts' r) = with_local_tracks ts r.
Proof. reflexivity. Qed.

Lemma toggle_audio_involutive publication :
  toggle_audio (toggle_audio publication) = publication.
Proof.
  unfold toggle_audio, toggled, is_kind.
  destruct publication as [s k t b]; simpl.
  destruct (Kind_eqb k audio) eqn:Hk; simpl; rewrite ?Hk; simpl;
    rewrite ?negb_involutive; reflexivity.
Qed.

Lemma is_kind_toggle_audio k publication :
  is_kind k (toggle_audio publication) = is_kind k publication.
Proof.
  unfold toggle_audio. now destruct (is_kind audio publication).
Qed.

Lemma filter_map_toggle_audio k ts :
  filter (is_kind k) (map toggle_audio ts) =
  map toggle_audio (filter (is_kind k) ts).
Proof.
  induction ts as [|p ts IH]; simpl; [reflexivity|].
  rewrite is_kind_toggle_audio.
  destruct (is_kind k p); simpl; now rewrite IH.
Qed.

(** One visit of the callback: it returns the publication toggled, and
    writes nothing but the label of the button. *)
Lemma toggleMute_callback publication w :
  (is_kind audio publication = true -> track publication <> None) ->
  exists w1,
    (if is_kind audio publication then
       if isTrackEnabled publication then
         set_toggleButton "Unmute" ;; track_set_enabled false publication
       else
         set_toggleButton "Mute" ;; track_set_enabled true publication
     else ret publication) w = Ret (toggle_audio publication) w1 /\
    vm w1 = vm w.
Proof.
  intros Ht. unfold toggle_audio, toggled.
  destruct (is_kind audio publication); [|eexists; split; reflexivity].
  specialize (Ht eq_refl).
  unfold track_set_enabled.
  destruct publication as [s k [t|] b]; [|now elim Ht]; simpl.
  destruct b; eexists; split; reflexivity.
Qed.

Lemma toggleMute_loop rest : forall visited w r,
  room (vm w) = Some r ->
  tracks (localParticipant r) = visited ++ rest ->
  Forall (fun publication =>
            is_kind audio publication = true -> track publication <> None) rest ->
  exists w',
    forEachMut store_local_tracks visited rest
      (fun publication =>
         if is_kind audio publication then
           if isTrackEnabled publication then
             set_toggleButton "Unmute" ;; track_set_enabled false publication
           else
             set_toggleButton "Mute" ;; track_set_enabled true publication
         else ret publication) w = Ret tt w' /\
    room (vm w') = Some (with_local_tracks (visited ++ map toggle_audio rest) r).
Proof.
  induction rest as [|x rest IH]; intros visited w r Hr Hts Hall.
  - exists w; split; [reflexivity|].
    simpl map. rewrite Hr, <- Hts, with_local_tracks_same; reflexivity.
  - inversion Hall as [|? ? Hx Hrest]; subst.
    destruct (toggleMute_callback x w Hx) as [w1 [Hf Hvm]].
    cbn [forEachMut].
    rewrite (bind_Ret _ Hf), bind_modify.
    destruct (IH (visited ++ [toggle_audio x])
                (store_local_tracks (visited ++ toggle_audio x :: rest) w1)
                (with_local_tracks (visited ++ toggle_audio x :: rest) r))
      as [w' [Hloop Hroom]].
    + cbn. rewrite Hvm, Hr. reflexivity.
    + cbn. now rewrite <- app_assoc.
    + exact Hrest.
    + exists w'; split; [exact Hloop|].
      rewrite Hroom, with_local_tracks_twice, <- app_assoc. reflexivity.
Qed.

Lemma toggleMute_Ret w r :
  room (vm w) = Some r ->
  Forall (fun publication => track publication <> None)
         (audioTracks (localParticipant r)) ->
  exists w',
    toggleMute w = Ret tt w' /\
    room (vm w') =
      Some (with_local_tracks (map toggle_audio (tracks (localParticipant r))) r).
Proof.
  intros Hr Hall. unfold toggleMute.
  assert (Hroom : this_room w = Ret r w) by (unfold this_room; now rewrite Hr).
  rewrite (bind_Ret _ Hroom).
  apply (toggleMute_loop (tracks (localParticipant r)) [] w r Hr eq_refl).
  apply Forall_forall. intros x Hx Hk.
  rewrite Forall_forall in Hall. apply Hall.
  unfold audioTracks. apply filter_In. now split.
Qed.

(** C6. When the component holds its room and every audio publication of
    the local participant carries its track, one call of [toggleMute]
    returns and leaves every audio publication of the local participant
    with its enabled flag negated (an enabled track is disabled, a disabled
    one enabled) and the video publications untouched; a second call
    returns and leaves the room exactly as it was before the first. *)
Theorem toggleMute_toggles_every_audio_track w r :
  room (vm w) = Some r ->
  Forall (fun publication => track publication <> None)
         (audioTracks (localParticipant r)) ->
  exists w1 r1 w2,
    toggleMute w = Ret tt w1 /\
    room (vm w1) = Some r1 /\
    audioTracks (localParticipant r1) =
      map toggled (audioTracks (localParticipant r)) /\
    videoTracks (localParticipant r1) = videoTracks (localParticipant r) /\
    toggleMute w1 = Ret tt w2 /\
    room (vm w2) = Some r.
Proof.
  intros Hr Hall.
  destruct (toggleMute_Ret w r Hr Hall) as [w1 [H1 Hr1]].
  set (r1 := with_local_tracks (map toggle_audio (tracks (localParticipant r))) r) in *.
  assert (Haudio : audioTracks (localParticipant r1) =
                   map toggled (audioTracks (localParticipant r))).
  { unfold audioTracks, r1; cbn. rewrite filter_map_toggle_audio.
    apply map_ext_in. intros x Hx. apply filter_In in Hx as [_ Hx].
    unfold toggle_audio. now rewrite Hx. }
  assert (Hall1 : Forall (fun publication => track publication <> None)
                    (audioTracks (localParticipant r1))).
  { rewrite Haudio. apply Forall_forall. intros x Hx.
    apply in_map_iff in Hx as [y [<- Hy]]. rewrite Forall_forall in Hall.
    cbn. now apply Hall. }
  destruct (toggleMute_Ret w1 r1 Hr1 Hall1) as [w2 [H2 Hr2]].
  exists w1, r1, w2. repeat split; try assumption.
  - unfold videoTracks, r1; cbn. rewrite filter_map_toggle_audio.
    rewrite <- (map_id (filter (is_kind video) (tracks (localParticipant r)))) at 2.
    apply map_ext_in. intros x Hx. apply filter_In in Hx as [_ Hx].
    unfold toggle_audio, is_kind in *.
    destruct (pkind x); simpl in *; try discriminate; reflexivity.
  - rewrite Hr2. unfold r1; cbn.
    rewrite with_local_tracks_twice, map_map.
    rewrite (map_ext _ (fun x => x)) by apply toggle_audio_involutive.
    rewrite map_id. now rewrite with_local_tracks_same.
Qed.

Lemma toggleMute_toggles_every_audio_track_witness :
  let w := with_vm (put_room (Some lobby)) (initial lobby_route) in
  exists w1 r1 w2,
    toggleMute w = Ret tt w1 /\
    room (vm w1) = Some r1 /\
    audioTracks (localParticipant r1) =
      map toggled (audioTracks (localParticipant lobby)) /\
    videoTracks (localParticipant r1) = videoTracks (localParticipant lobby) /\
    toggleMute w1 = Ret tt w2 /\
    room (vm w2) = Some lobby.
Proof.
  intros w.
  apply (toggleMute_toggles_every_audio_track w lobby).
  - reflexivity.
  - repeat constructor; discriminate.
Defined.

(* ===================================================================== *)
(** * Lists of sids and of containers *)
(* ===================================================================== *)

Lemma mem_In s l : mem s l = true <-> In s l.
Proof.
  unfold mem. rewrite existsb_exists. split.
  - intros [x [Hx Heq]]. apply String.eqb_eq in Heq. now subst.
  - intros H. exists s. split; [exact H|apply String.eqb_refl].
Qed.

Lemma mem_not_In s l : mem s l = false <-> ~ In s l.
Proof.
  rewrite <- mem_In. destruct (mem s l); split; congruence.
Qed.

Lemma without_not_In s l : ~ In s l -> without s l = l.
Proof.
  induction l as [|x l IH]; simpl; intros H; [reflexivity|].
  destruct (String.eqb_spec x s) as [->|Hx]; simpl.
  - elim H; now left.
  - rewrite IH; [reflexivity|]. intros Hin; apply H; now right.
Qed.

Lemma without_NoDup s l : NoDup l -> NoDup (without s l).
Proof. apply NoDup_filter. Qed.

Lemma NoDup_snoc (x : string) l : NoDup l -> ~ In x l -> NoDup (l ++ [x]).
Proof.
  induction l as [|y l IH]; simpl; intros Hl Hx.
  - constructor; [intros []|constructor].
  - inversion Hl as [|? ? Hy Hl']; subst. constructor.
    + rewrite in_app_iff. intros [H|[H|[]]]; [now apply Hy|].
      apply Hx; now left.
    + apply IH; [exact Hl'|]. intros H; apply Hx; now right.
Qed.

Lemma Map_set_fresh p ps :
  ~ In (sid p) (map sid ps) -> Map_set p ps = ps ++ [p].
Proof.
  induction ps as [|q ps IH]; simpl; intros H; [reflexivity|].
  destruct (String.eqb_spec (sid q) (sid p)) as [Heq|Hne].
  - elim H; now left.
  - rewrite IH; [reflexivity|]. intros Hin; apply H; now right.
Qed.

Lemma map_sid_Map_delete s ps :
  map sid (Map_delete s ps) = without s (map sid ps).
Proof.
  unfold Map_delete, without.
  induction ps as [|q ps IH]; simpl; [reflexivity|].
  destruct (sid q =? s); simpl; now rewrite IH.
Qed.

Lemma index_of_id_In s cs :
  In s (map id cs) -> exists i, index_of_id s cs = Some i.
Proof.
  induction cs as [|c cs IH]; simpl; intros H; [contradiction|].
  destruct (String.eqb_spec (id c) s) as [Heq|Hne].
  - now exists 0.
  - destruct H as [H|H]; [contradiction|].
    destruct (IH H) as [i Hi]. exists (S i). now rewrite Hi.
Qed.

Lemma remove_nth_ids s cs : forall i,
  NoDup (map id cs) -> index_of_id s cs = Some i ->
  map id (remove_nth i cs) = without s (map id cs).
Proof.
  induction cs as [|c cs IH]; simpl; intros i Hnd Hi; [discriminate|].
  inversion Hnd as [|? ? Hc Hnd']; subst.
  destruct (String.eqb_spec (id c) s) as [Heq|Hne]; simpl.
  - injection Hi as <-. simpl. subst s.
    now rewrite without_not_In.
  - destruct (index_of_id s cs) as [j|] eqn:Hj; [|discriminate].
    injection Hi as <-. simpl. f_equal. now apply IH.
Qed.

(** Listeners that are not the room's do nothing for a room event. *)
Lemma bind_ret_tt (m : M unit) w : bind m (fun _ => ret tt) w = m w.
Proof. unfold bind, ret. destruct (m w) as [[] w1|e w1]; reflexivity. Qed.

Lemma emit_room_event isMobile e ls :
  is_room_event e = true -> forall w,
  forEach ls (fun l => listener isMobile l e) w =
  forEach (filter is_room_listener ls) (fun l => listener isMobile l e) w.
Proof.
  intros He. induction ls as [|l ls IH]; intros w; [reflexivity|].
  assert (Hstep : forall m : M unit,
            bind m (fun _ => forEach ls (fun l => listener isMobile l e)) w =
            bind m (fun _ => forEach (filter is_room_listener ls)
                               (fun l => listener isMobile l e)) w).
  { intros m. unfold bind. destruct (m w); [apply IH|reflexivity]. }
  destruct l; simpl filter; cbn [forEach]; try apply Hstep;
    destruct e; try discriminate; apply IH.
Qed.

(* ===================================================================== *)
(** * Connecting and disconnecting participants *)
(* ===================================================================== *)

Lemma participantConnected_container_ids participant room className w :
  container_ids (world (participantConnected participant room className w)) =
  container_ids w ++ [sid participant].
Proof.
  unfold participantConnected.
  rewrite world_bind, setupParticipantContainer_Ret.
  assert (H : keeps (same container_ids)
                (forEach (tracks participant)
                   (fun publication => trackPublished publication participant) ;;
                 on (OnTrackPublished participant))) by page_keeps.
  rewrite H. unfold container_ids. cbn.
  destruct (negb (className =? "local")); cbn; now rewrite map_app.
Qed.

Lemma forEach_participantConnected room className ps : forall w w',
  forEach ps (fun participant => participantConnected participant room className) w
    = Ret tt w' ->
  container_ids w' = container_ids w ++ map sid ps /\
  vm w' = vm w /\ chat w' = chat w /\ room_listeners w' = room_listeners w.
Proof.
  induction ps as [|p ps IH]; intros w w' H.
  - injection H as <-. now rewrite app_nil_r.
  - cbn [forEach] in H. apply bind_inv in H as [[] [w1 [H1 H2]]].
    apply IH in H2 as [Hids [Hvm [Hchat Hls]]].
    pose proof (participantConnected_container_ids p room className w) as Hp.
    pose proof (participantConnected_vm p room className w) as Hp1.
    pose proof (participantConnected_chat p room className w) as Hp2.
    pose proof (participantConnected_room_listeners p room className w) as Hp3.
    rewrite H1 in Hp, Hp1, Hp2, Hp3. unfold same in *. cbn [world] in *.
    rewrite Hids, Hp, Hvm, Hchat, Hls, <- app_assoc. auto.
Qed.

Lemma createChat_inv isMobile room connectOptions w0 w :
  createChat isMobile (inr room) connectOptions w0 = Ret tt w ->
  vm w = put_room (Some room) (put_loading false (vm w0)) /\
  container_ids w = container_ids w0 ++ room_sids room /\
  room_listeners w =
    room_listeners w0 ++
    [OnParticipantConnected; OnParticipantDisconnected; OnceDisconnected] /\
  (exists publication rest,
     videoTracks (localParticipant room) = publication :: rest /\
     localVideoTrack (chat w) = track publication) /\
  promise (chat w) = promise (chat w0) /\
  onbeforeunload (window w) = Some LeaveRoom /\
  (isMobile tt = true -> onpagehide (window w) = Some LeaveRoom).
Proof.
  unfold createChat. cbn [await].
  change (bind (ret room) ?k w0) with (k room w0). cbv beta.
  rewrite !bind_modify. unfold first_video_track.
  destruct (videoTracks (localParticipant room)) as [|publication rest] eqn:Hv;
    [discriminate|].
  change (bind (ret ?t) ?k ?x) with (k t x). cbv beta.
  rewrite bind_modify.
  intros H.
  apply bind_inv in H as [[] [w1 [H1 H]]].
  apply bind_inv in H as [[] [w2 [H2 H]]].
  apply forEach_participantConnected in H2 as [Hids2 [Hvm2 [Hchat2 Hls2]]].
  pose proof (participantConnected_container_ids (localParticipant room) room "local"
                (with_chat (put_localVideoTrack (track publication))
                   (with_vm (put_room (Some room)) (with_vm (put_loading false) w0))))
    as Hids1.
  match type of H1 with ?m ?x = _ =>
    pose proof (participantConnected_vm (localParticipant room) room "local" x) as Hvm1;
    pose proof (participantConnected_chat (localParticipant room) room "local" x) as Hchat1;
    pose proof (participantConnected_room_listeners (localParticipant room) room "local" x) as Hls1
  end.
  rewrite H1 in Hids1, Hvm1, Hchat1, Hls1. unfold same in *. cbn [world] in *.
  assert (Hw : w = with_sdk (fun s => put_listeners (listeners s ++ [OnceDisconnected]) s)
                 ((if isMobile tt
                   then fun x =>
                     with_document
                       (put_onvisibilitychange
                          (Some (VisibilityChange (co_video connectOptions))))
                       (with_window (put_onpagehide (Some LeaveRoom)) x)
                   else fun x => x)
                    (with_window (put_onbeforeunload (Some LeaveRoom))
                       (with_sdk (fun s => put_listeners
                                    (listeners s ++ [OnParticipantDisconnected]) s)
                          (with_sdk (fun s => put_listeners
                                       (listeners s ++ [OnParticipantConnected]) s)
                             w2))))).
  { unfold on in H. rewrite !bind_modify in H.
    destruct (isMobile tt); cbn in H; now injection H as <-. }
  clear H.
  assert (Hls : room_listeners w =
                room_listeners w2 ++
                [OnParticipantConnected; OnParticipantDisconnected; OnceDisconnected]).
  { subst w. unfold room_listeners.
    destruct (isMobile tt); cbn; rewrite !filter_app; cbn;
      now rewrite <- !app_assoc. }
  split; [|split; [|split; [|split; [|split; [|split]]]]].
  - subst w. destruct (isMobile tt); cbn; now rewrite Hvm2, Hvm1.
  - transitivity (container_ids w2).
    + subst w. destruct (isMobile tt); reflexivity.
    + rewrite Hids2, Hids1. unfold room_sids, container_ids; cbn.
      now rewrite <- app_assoc.
  - now rewrite Hls, Hls2, Hls1.
  - exists publication, rest. split; [reflexivity|].
    subst w. destruct (isMobile tt); cbn; now rewrite Hchat2, Hchat1.
  - subst w. destruct (isMobile tt); cbn; now rewrite Hchat2, Hchat1.
  - subst w. destruct (isMobile tt); reflexivity.
  - intros Hm. subst w. rewrite Hm. reflexivity.
Qed.

(** [participantDisconnected] for a participant whose container is in the
    document: the first container with the participant's sid goes, the
    message state becomes ["disconnect"], nothing else changes. *)
Lemma participantDisconnected_Ret participant w i :
  index_of_id (sid participant) (participantsEl (document w)) = Some i ->
  participantDisconnected participant w =
  Ret tt
    (with_document (put_messageDisplay "flex")
       (with_vm (put_messageState "disconnect")
          (with_document
             (fun d => put_participantsEl (remove_nth i (participantsEl d)) d) w))).
Proof.
  intros Hi. unfold participantDisconnected, querySelector_id.
  unfold bind at 1. unfold gets. rewrite Hi. reflexivity.
Qed.

Lemma forEach_participantDisconnected ps : forall w,
  container_ids w = map sid ps ->
  exists w',
    forEach ps (fun participant => participantDisconnected participant) w = Ret tt w' /\
    container_ids w' = [] /\
    chat w' = chat w /\ sdk w' = sdk w /\ the_handlers w' = the_handlers w.
Proof.
  induction ps as [|p ps IH]; intros w Hids.
  - exists w. repeat split; auto.
  - assert (Hi : index_of_id (sid p) (participantsEl (document w)) = Some 0).
    { unfold container_ids in Hids.
      destruct (participantsEl (document w)) as [|c cs]; [discriminate|].
      simpl in *. injection Hids as -> _. now rewrite String.eqb_refl. }
    cbn [forEach]. rewrite (bind_Ret _ (participantDisconnected_Ret p w 0 Hi)).
    match goal with |- context [forEach ps _ ?x] => destruct (IH x) as [w' H] end.
    + unfold container_ids in *. cbn.
      destruct (participantsEl (document w)) as [|c cs]; [discriminate|].
      simpl in *. now injection Hids.
    + destruct H as [Hloop [Hnil [Hchat [Hsdk Hh]]]].
      exists w'. repeat split; auto.
Qed.

(* ===================================================================== *)
(** * The session *)
(* ===================================================================== *)

Section Session.

Variable isMobile : unit -> bool.

Lemma live_room sids w :
  live sids w -> exists r, room (vm w) = Some r /\ room_sids r = sids.
Proof.
  intros [Hs _ _ _ _ _]. unfold the_sids in Hs.
  destruct (room (vm w)) as [r|]; [|discriminate].
  injection Hs as Hs. now exists r.
Qed.

Lemma live_quiet_event e sids w :
  is_room_event e = false -> live sids w -> live sids (fire isMobile e w).
Proof.
  intros He [Hs Hi Hl Ht Hp Hn]. unfold fire. constructor.
  - rewrite (handle_sids isMobile e He w). exact Hs.
  - rewrite (handle_container_ids isMobile e He w). exact Hi.
  - rewrite (handle_room_listeners isMobile e He w). exact Hl.
  - apply (handle_track_stays isMobile e He w). exact Ht.
  - pose proof (handle_promise isMobile e He w) as H.
    unfold same, the_promise in H. now rewrite H.
  - exact Hn.
Qed.

Lemma fire_room_event e w :
  is_room_event e = true ->
  room_listeners w =
    [OnParticipantConnected; OnParticipantDisconnected; OnceDisconnected] ->
  fire isMobile e w =
  world (forEach [OnParticipantConnected; OnParticipantDisconnected; OnceDisconnected]
           (fun l => listener isMobile l e) (sdk_updated e w)).
Proof.
  intros He Hl. unfold fire.
  assert (Hh : handle isMobile e w = emit isMobile e (sdk_updated e w))
    by (destruct e; try discriminate; reflexivity).
  rewrite Hh. unfold emit.
  change (bind (gets ?f) ?k ?x) with (k (f x) x). cbv beta.
  rewrite (emit_room_event isMobile e _ He).
  change (listeners (sdk (sdk_updated e w))) with (listeners (sdk w)).
  fold (room_listeners w). now rewrite Hl.
Qed.

Lemma container_ids_tail w s rest :
  container_ids w = s :: rest ->
  container_ids
    (with_document (put_messageDisplay "flex")
       (with_vm (put_messageState "disconnect")
          (with_document
             (fun d => put_participantsEl (remove_nth 0 (participantsEl d)) d) w)))
  = rest.
Proof.
  unfold container_ids; cbn.
  destruct (participantsEl (document w)); cbn; congruence.
Qed.

Lemma world_bind_ret_ret (m : M unit) w :
  world (bind m (fun _ => bind (ret tt) (fun _ => ret tt)) w) = world (m w).
Proof. unfold bind, ret. destruct (m w); reflexivity. Qed.

Lemma live_participantConnected p sids w :
  live sids w -> mem (sid p) sids = false ->
  live (sids ++ [sid p]) (fire isMobile (RoomParticipantConnected p) w).
Proof.
  intros Hlive Hfresh.
  destruct (live_room sids w Hlive) as [r [Hr Hrs]].
  destruct Hlive as [Hs Hi Hl Ht Hp Hn].
  apply mem_not_In in Hfresh.
  rewrite (fire_room_event (RoomParticipantConnected p) w eq_refl Hl).
  cbn [forEach listener].
  set (e := RoomParticipantConnected p).
  set (r' := sdk_update e r).
  assert (Hroom : this_room (sdk_updated e w) = Ret r' (sdk_updated e w)).
  { unfold this_room, sdk_updated. cbn. now rewrite Hr. }
  rewrite world_bind_ret_ret, (bind_Ret _ Hroom).
  assert (Hrs' : room_sids r' = sids ++ [sid p]).
  { unfold r', e, room_sids; cbn. rewrite Map_set_fresh.
    - rewrite map_app. cbn. now rewrite <- Hrs.
    - intros Hin. apply Hfresh. rewrite <- Hrs. now right. }
  constructor.
  - pose proof (participantConnected_vm p r' "participant" (sdk_updated e w)) as H.
    unfold same in H. unfold the_sids. rewrite H. unfold sdk_updated; cbn.
    rewrite Hr. cbn [option_map]. fold r'. now rewrite Hrs'.
  - rewrite participantConnected_container_ids.
    change (container_ids (sdk_updated e w)) with (container_ids w).
    now rewrite Hi.
  - rewrite (participantConnected_room_listeners p r' "participant" (sdk_updated e w)).
    exact Hl.
  - pose proof (participantConnected_chat p r' "participant" (sdk_updated e w)) as H.
    unfold same in H. rewrite H. exact Ht.
  - pose proof (participantConnected_chat p r' "participant" (sdk_updated e w)) as H.
    unfold same in H. rewrite H. exact Hp.
  - now apply NoDup_snoc.
Qed.

Lemma live_participantDisconnected p sids w :
  live sids w -> mem (sid p) (tl sids) = true ->
  live (without (sid p) sids) (fire isMobile (RoomParticipantDisconnected p) w).
Proof.
  intros Hlive Hin.
  destruct (live_room sids w Hlive) as [r [Hr Hrs]].
  destruct Hlive as [Hs Hi Hl Ht Hp Hn].
  apply mem_In in Hin.
  rewrite (fire_room_event (RoomParticipantDisconnected p) w eq_refl Hl).
  cbn [forEach listener].
  set (e := RoomParticipantDisconnected p).
  change (bind (ret tt) ?k) with (k tt). cbv beta.
  rewrite world_bind_ret_ret.
  assert (Hp_in : In (sid p) sids) by (rewrite <- Hrs in *; now right).
  destruct (index_of_id_In (sid p) (participantsEl (document w))) as [i Hidx].
  { fold (container_ids w). now rewrite Hi. }
  rewrite (participantDisconnected_Ret p (sdk_updated e w) i Hidx).
  cbn [world].
  assert (Hlocal : sid (localParticipant r) <> sid p).
  { rewrite <- Hrs in Hn, Hin. inversion Hn as [|? ? Hnot _]; subst.
    cbn in Hin. intros Heq. apply Hnot. now rewrite Heq. }
  constructor.
  - unfold the_sids, sdk_updated; cbn. rewrite Hr. cbn [option_map]. f_equal.
    unfold room_sids, e; cbn [sdk_update set_participants localParticipant participants].
    rewrite map_sid_Map_delete, <- Hrs. unfold room_sids, without; cbn [filter].
    destruct (String.eqb_spec (sid (localParticipant r)) (sid p)); [contradiction|].
    reflexivity.
  - unfold container_ids; cbn. rewrite <- Hi.
    apply remove_nth_ids; [|exact Hidx].
    fold (container_ids w). now rewrite Hi.
  - exact Hl.
  - exact Ht.
  - exact Hp.
  - now apply without_NoDup.
Qed.

(** The world in which the listener of [disconnected] settles the promise:
    the handlers are cleared, the local video track is stopped, no
    container is left, and the promise is still pending. *)
Lemma fire_disconnected error sids w :
  live sids w ->
  exists mid t,
    localVideoTrack (chat w) = Some t /\
    promise (chat mid) = Pending /\
    the_handlers mid = (None, None, None) /\
    In (TrackStop t) (calls (sdk mid)) /\
    container_ids mid = [] /\
    fire isMobile (RoomDisconnected error) w =
      with_chat (put_promise (promise_after [RoomDisconnected error])) mid.
Proof.
  intros Hlive.
  destruct (live_room sids w Hlive) as [r [Hr Hrs]].
  destruct Hlive as [Hs Hi Hl Ht Hp Hn].
  destruct (localVideoTrack (chat w)) as [t|] eqn:Htrack; [|now elim Ht].
  rewrite (fire_room_event (RoomDisconnected error) w eq_refl Hl).
  cbn [forEach listener].
  set (e := RoomDisconnected error).
  change (bind (ret tt) ?k) with (k tt). cbv beta.
  change (bind (ret tt) ?k) with (k tt). cbv beta.
  rewrite bind_ret_tt, bind_modify.
  unfold onDisconnected. cbv beta iota delta [truthy].
  rewrite bind_modify, bind_bind, bind_modify, bind_modify.
  unfold localVideoTrack_stop.
  rewrite bind_bind.
  change (bind (gets ?f) ?k ?x) with (k (f x) x). cbv beta.
  cbn [chat with_document with_window with_sdk sdk_updated with_vm].
  rewrite Htrack. unfold call. rewrite bind_modify.
  match goal with |- context [bind this_room ?k ?x] =>
    assert (Hroom : this_room x = Ret r x)
      by (unfold this_room; cbn; now rewrite Hr);
    rewrite (bind_Ret k Hroom); set (w3 := x)
  end.
  assert (Hi3 : container_ids w3 = sids) by exact Hi.
  assert (Hidx : index_of_id (sid (localParticipant r)) (participantsEl (document w3))
                 = Some 0).
  { unfold container_ids in Hi3.
    destruct (participantsEl (document w3)) as [|c cs]; rewrite <- Hrs in Hi3;
      [discriminate|].
    cbn in Hi3. injection Hi3 as Hc _. cbn. now rewrite Hc, String.eqb_refl. }
  rewrite (bind_Ret _ (participantDisconnected_Ret (localParticipant r) w3 0 Hidx)).
  match goal with |- context [bind (forEach (participants r) ?f) ?k ?x] =>
    destruct (forEach_participantDisconnected (participants r) x)
      as [w5 [Hloop [Hnil [Hchat [Hsdk Hh]]]]]
  end.
  { apply (container_ids_tail w3 (sid (localParticipant r))).
    rewrite Hi3, <- Hrs. reflexivity. }
  rewrite (bind_Ret _ Hloop).
  exists w5, t. split; [reflexivity|].
  assert (Hp5 : promise (chat w5) = Pending) by (rewrite Hchat; exact Hp).
  split; [exact Hp5|]. split; [rewrite Hh; reflexivity|].
  split; [rewrite Hsdk; cbn; apply in_or_app; right; now left|].
  split; [exact Hnil|].
  destruct error as [err|]; unfold reject, resolve, settle, modify; cbn [world];
    unfold with_chat; rewrite Hp5; reflexivity.
Qed.






(** [createChat], once it has returned from the initial world, leaves a
    live session. *)
Lemma createChat_live route room connectOptions w :
  createChat isMobile (inr room) connectOptions (initial route) = Ret tt w ->
  sdk_room room ->
  live (room_sids room) w.
Proof.
  intros Hc [Hnd Htracks].
  apply createChat_inv in Hc
    as [Hvm [Hids [Hls [[publication [rest [Hv Ht]]] [Hp _]]]]].
  constructor.
  - unfold the_sids. rewrite Hvm. reflexivity.
  - exact Hids.
  - exact Hls.
  - rewrite Ht. rewrite Forall_forall in Htracks. apply Htracks.
    assert (Hin : In publication (videoTracks (localParticipant room)))
      by (rewrite Hv; now left).
    unfold videoTracks in Hin. now apply filter_In in Hin.
  - exact Hp.
  - exact Hnd.
Qed.

End Session.

Section SessionRuns.

Variable isMobile : unit -> bool.

Lemma live_run es : forall sids w,
  live sids w -> sdk_trace sids es = true -> no_disconnected es = true ->
  live (connected_after sids es) (run isMobile es w).
Proof.
  induction es as [|e es IH]; intros sids w Hlive Htrace Hno; [exact Hlive|].
  rewrite run_cons.
  destruct e; cbn [sdk_trace connected_after no_disconnected] in *;
    try discriminate;
    try (apply IH; [now apply live_quiet_event|exact Htrace|exact Hno]).
  - apply andb_prop in Htrace as [Hfresh Htrace].
    apply negb_true_iff in Hfresh.
    apply IH; [now apply live_participantConnected|exact Htrace|exact Hno].
  - apply andb_prop in Htrace as [Hin Htrace].
    apply IH; [now apply live_participantDisconnected|exact Htrace|exact Hno].
Qed.

End SessionRuns.

(* ===================================================================== *)
(** * The lifecycle of the containers *)
(* ===================================================================== *)



(* ===================================================================== *)
(** * The promise of [createChat] *)
(* ===================================================================== *)

Lemma sdk_trace_before_disconnected es1 : forall sids error es2,
  sdk_trace sids (es1 ++ RoomDisconnected error :: es2) = true ->
  sdk_trace sids es1 = true /\ no_disconnected es1 = true.
Proof.
  induction es1 as [|e es1 IH]; intros sids error es2 Htrace; [now split|].
  destruct e; cbn [app sdk_trace no_disconnected] in *;
    try (eapply IH; exact Htrace).
  - apply andb_prop in Htrace as [Hfresh Htrace].
    rewrite Hfresh. eapply IH; exact Htrace.
  - apply andb_prop in Htrace as [Hin Htrace].
    rewrite Hin. eapply IH; exact Htrace.
  - exfalso. clear - Htrace.
    induction es1 as [|e es1 IH]; cbn in Htrace; [discriminate|].
    destruct e; try discriminate; auto.
Qed.




(* ===================================================================== *)
(** * Leaving the room *)
(* ===================================================================== *)


(** Until the room's [disconnected] event, the handlers on [window] and
    [document] stay as [createChat] installed them and the room is held. *)
Lemma handlers_stay isMobile es : forall w,
  no_disconnected es = true ->
  the_handlers (run isMobile es w) = the_handlers w /\
  room_held (run isMobile es w) = room_held w.
Proof.
  induction es as [|e es IH]; intros w Hno; [now split|].
  rewrite run_cons.
  assert (He : no_disconnected [e] = true /\ no_disconnected es = true)
    by (destruct e; try discriminate; now split).
  destruct He as [He Hes].
  destruct (IH (fire isMobile e w) Hes) as [Hh Hr].
  rewrite Hh, Hr. unfold fire. split.
  - apply (handle_handlers isMobile e He w).
  - apply (handle_room_held isMobile e w).
Qed.



(* ===================================================================== *)
(** * Further properties: removing a container *)
(* ===================================================================== *)

Ltac leaf_more :=
  unfold same, stays_off, container_ids, room_listeners;
  cbn;
  solve [ reflexivity | auto | tauto | congruence
        | match goal with
          | |- context [room (vm ?w)] => destruct (room (vm w)); reflexivity
          end ].

Ltac page_keeps_more :=
  repeat first [keeps_step leaf_more | progress page_unfold].

Lemma stays_off_refl w : stays_off w w.
Proof. unfold stays_off; auto. Qed.

Lemma stays_off_trans a b c : stays_off a b -> stays_off b c -> stays_off a c.
Proof. unfold stays_off; auto. Qed.

#[local] Hint Resolve stays_off_refl stays_off_trans : keeps.

Lemma remove_nth_remove_first s cs : forall i,
  index_of_id s cs = Some i ->
  map id (remove_nth i cs) = remove_first s (map id cs).
Proof.
  induction cs as [|c cs IH]; simpl; intros i Hi; [discriminate|].
  destruct (id c =? s).
  - now injection Hi as <-.
  - destruct (index_of_id s cs) as [j|]; [|discriminate].
    injection Hi as <-. simpl. f_equal. now apply IH.
Qed.

Lemma index_of_id_None s cs : mem s (map id cs) = false -> index_of_id s cs = None.
Proof.
  intros H. apply mem_not_In in H.
  destruct (index_of_id s cs) as [i|] eqn:Hi; [|reflexivity].
  exfalso. apply H. clear H. revert i Hi.
  induction cs as [|c cs IH]; simpl; intros i Hi; [discriminate|].
  destruct (String.eqb_spec (id c) s); [now left|].
  destruct (index_of_id s cs) as [j|]; [|discriminate].
  right. now apply (IH j).
Qed.

(** X1. [participantDisconnected] for a participant that has no container
    throws a [TypeError] and changes nothing: the message state is not
    set.  For a participant that has one, it returns, removes the first
    container with the participant's sid and only that one, sets the
    message state to ["disconnect"] and shows the message; the handlers,
    the listeners, the SDK calls and the room stay as they were. *)
Theorem participantDisconnected_removes_first_container participant w :
  if mem (sid participant) (container_ids w) then
    exists w',
      participantDisconnected participant w = Ret tt w' /\
      container_ids w' = remove_first (sid participant) (container_ids w) /\
      messageState (vm w') = "disconnect" /\
      messageDisplay (document w') = "flex" /\
      room (vm w') = room (vm w) /\
      the_handlers w' = the_handlers w /\
      chat w' = chat w /\ sdk w' = sdk w
  else participantDisconnected participant w = Throw TypeError w.
Proof.
  destruct (mem (sid participant) (container_ids w)) eqn:Hm.
  - apply mem_In in Hm.
    destruct (index_of_id_In _ _ Hm) as [i Hi].
    eexists. split; [exact (participantDisconnected_Ret participant w i Hi)|].
    split; [|repeat split].
    unfold container_ids; cbn. now apply remove_nth_remove_first.
  - apply index_of_id_None in Hm.
    unfold participantDisconnected, querySelector_id.
    unfold bind at 1. unfold gets. rewrite Hm. reflexivity.
Qed.

(* ===================================================================== *)
(** * Further properties: the loading flag *)
(* ===================================================================== *)

Lemma handle_loading isMobile e :
  keeps (same (fun w => loading (vm w))) (handle isMobile e).
Proof. destruct e; page_keeps_more. Qed.

Lemma run_loading isMobile es : forall w,
  loading (vm (run isMobile es w)) = loading (vm w).
Proof.
  induction es as [|e es IH]; intros w; [reflexivity|].
  rewrite run_cons, IH. apply (handle_loading isMobile e w).
Qed.

(** X2. The page stops showing [Loading...] exactly when [connect]
    resolves: from then on [loading] is false, whatever happens next (also
    when the rest of [createChat] throws); when [connect] rejects,
    [loading] stays true under every event. *)
Theorem loading_until_connect (isMobile : unit -> bool) route connected es :
  loading (vm (run isMobile es (created isMobile connected (initial route)))) =
  match connected with
  | inl _ => true
  | inr _ => false
  end.
Proof.
  rewrite run_loading. unfold created, async.
  destruct connected as [e|r].
  - reflexivity.
  - set (o := {| co_name := roomName (vm (initial route)); co_audio := true;
                 co_video := {| width := 400 |} |}).
    assert (Hvm : loading (vm (world (createChat isMobile (inr r) o (initial route))))
                  = false).
    { unfold createChat. cbn [await].
      change (bind (ret r) ?k ?x) with (k r x). cbv beta.
      rewrite bind_modify.
      match goal with |- context [world (?m ?x)] =>
        assert (Hk : keeps (same (fun w => loading (vm w))) m) by page_keeps_more;
        rewrite (Hk x)
      end. reflexivity. }
    destruct (createChat isMobile (inr r) o (initial route)); exact Hvm.
Qed.

(* ===================================================================== *)
(** * Further properties: platforms that are not mobile *)
(* ===================================================================== *)

Lemma handle_stays_off isMobile e : keeps stays_off (handle isMobile e).
Proof. destruct e; page_keeps_more. Qed.

Lemma run_stays_off isMobile es : forall w, stays_off w (run isMobile es w).
Proof.
  induction es as [|e es IH]; intros w; [apply stays_off_refl|].
  rewrite run_cons. eapply stays_off_trans; [|apply IH].
  apply handle_stays_off.
Qed.

Lemma created_stays_off isMobile connected w :
  isMobile tt = false -> stays_off w (created isMobile connected w).
Proof.
  intros Hm. unfold created, async.
  match goal with |- context [createChat isMobile connected ?o w] =>
    assert (H : keeps stays_off (createChat isMobile connected o))
  end.
  { unfold createChat. rewrite Hm. page_keeps_more. }
  specialize (H w).
  destruct (createChat isMobile connected _ w); exact H.
Qed.

(** X3. Where [isMobile()] is false, the page never installs a handler for
    [pagehide] or [visibilitychange]: throughout the session, whatever
    [connect] yields and whatever events came before, these two events
    leave the world exactly as it is (no track is stopped, unpublished or
    created, and [room.disconnect()] is not called). *)
Theorem desktop_ignores_pagehide_and_visibility
    (isMobile : unit -> bool) route connected es hidden :
  isMobile tt = false ->
  let w := run isMobile es (created isMobile connected (initial route)) in
  onpagehide (window w) = None /\
  onvisibilitychange (document w) = None /\
  fire isMobile Pagehide w = w /\
  fire isMobile (Visibilitychange hidden) w = w.
Proof.
  intros Hm w.
  assert (Hoff : onpagehide (window w) = None /\
                 onvisibilitychange (document w) = None).
  { apply (run_stays_off isMobile es).
    apply (created_stays_off isMobile connected _ Hm). now split. }
  destruct Hoff as [H1 H2].
  repeat split; try assumption; unfold fire, handle;
    change (bind (gets ?f) ?k ?x) with (k (f x) x); cbv beta;
    rewrite ?H1, ?H2; reflexivity.
Qed.

Lemma desktop_ignores_pagehide_and_visibility_witness :
  let es := [RoomParticipantConnected carol; ClickToggleMute] in
  let w := run on_desktop es (created on_desktop (inr lobby) (initial lobby_route)) in
  onpagehide (window w) = None /\
  onvisibilitychange (document w) = None /\
  fire on_desktop Pagehide w = w /\
  fire on_desktop (Visibilitychange true) w = w.
Proof.
  intros es.
  apply (desktop_ignores_pagehide_and_visibility on_desktop lobby_route
           (inr lobby) es true).
  reflexivity.
Defined.

(* ===================================================================== *)
(** * Further properties: a setup that fails *)
(* ===================================================================== *)

Lemma handle_listeners isMobile e :
  is_sdk_event e = false ->
  keeps (same (fun w => listeners (sdk w))) (handle isMobile e).
Proof. destruct e; try discriminate; intros _; page_keeps_more. Qed.

Lemma fire_without_listeners isMobile e w :
  is_sdk_event e = true -> listeners (sdk w) = [] ->
  fire isMobile e w = sdk_updated e w.
Proof.
  intros He Hl. unfold fire.
  assert (Hh : handle isMobile e w = emit isMobile e (sdk_updated e w))
    by (destruct e; try discriminate; reflexivity).
  rewrite Hh. unfold emit.
  change (bind (gets ?f) ?k ?x) with (k (f x) x). cbv beta.
  change (listeners (sdk (sdk_updated e w))) with (listeners (sdk w)).
  rewrite Hl. reflexivity.
Qed.

Lemma fire_dead isMobile x e w : dead x w -> dead x (fire isMobile e w).
Proof.
  intros [Hl Hi Hh Hp].
  destruct (is_sdk_event e) eqn:He.
  - rewrite (fire_without_listeners isMobile e w He Hl).
    constructor; assumption.
  - assert (Hr : is_room_event e = false) by (destruct e; try discriminate; reflexivity).
    assert (Hn : no_disconnected [e] = true) by (destruct e; try discriminate; reflexivity).
    unfold fire. constructor.
    + rewrite (handle_listeners isMobile e He w). exact Hl.
    + rewrite (handle_container_ids isMobile e Hr w). exact Hi.
    + rewrite (handle_handlers isMobile e Hn w). exact Hh.
    + pose proof (handle_promise isMobile e Hr w) as H.
      unfold same, the_promise in H. now rewrite H.
Qed.

Lemma run_dead isMobile x es : forall w, dead x w -> dead x (run isMobile es w).
Proof.
  induction es as [|e es IH]; intros w Hd; [exact Hd|].
  rewrite run_cons. apply IH. now apply fire_dead.
Qed.

(** X4. When [connect] rejects, or when the local participant has no video
    publication, the promise of [createChat] is rejected with that error
    and the page is inert from then on: whatever events follow, no
    container is ever in [#participants], no listener is registered with
    the SDK and no handler is installed on [window] or [document], so the
    participants that connect later are never shown. *)
Theorem failed_setup_leaves_the_page_inert
    (isMobile : unit -> bool) route connected e es :
  setup_error connected = Some e ->
  let w := run isMobile es (created isMobile connected (initial route)) in
  promise (chat w) = Rejected e /\
  container_ids w = [] /\
  listeners (sdk w) = [] /\
  onbeforeunload (window w) = None /\
  onpagehide (window w) = None /\
  onvisibilitychange (document w) = None.
Proof.
  intros He w.
  assert (Hd : dead e (created isMobile connected (initial route))).
  { unfold created, async, createChat, setup_error in *.
    destruct connected as [x|r].
    - injection He as <-. now constructor.
    - destruct (videoTracks (localParticipant r)) as [|p ps] eqn:Hv; [|discriminate].
      injection He as <-. cbn [await].
      change (bind (ret r) ?k ?x) with (k r x). cbv beta.
      rewrite !bind_modify. unfold first_video_track. rewrite Hv.
      now constructor. }
  destruct (run_dead isMobile e es _ Hd) as [Hl Hi Hh Hp].
  fold w in Hl, Hi, Hh, Hp. unfold the_handlers in Hh. injection Hh as H1 H2 H3.
  repeat split; assumption.
Qed.

Lemma failed_setup_leaves_the_page_inert_witness :
  let connected := inr {| localParticipant := carol; participants := [bob] |} in
  let es := [RoomParticipantConnected alice; ClickToggleMute; Beforeunload] in
  let w := run on_phone es (created on_phone connected (initial lobby_route)) in
  promise (chat w) = Rejected TypeError /\
  container_ids w = [] /\
  listeners (sdk w) = [] /\
  onbeforeunload (window w) = None /\
  onpagehide (window w) = None /\
  onvisibilitychange (document w) = None.
Proof.
  intros connected es.
  apply (failed_setup_leaves_the_page_inert on_phone lobby_route connected
           TypeError es).
  reflexivity.
Defined.

(* ===================================================================== *)
(** * Further properties: the page in the background *)
(* ===================================================================== *)

Lemma createChat_visibilitychange isMobile r connectOptions w0 w :
  createChat isMobile (inr r) connectOptions w0 = Ret tt w ->
  isMobile tt = true ->
  onvisibilitychange (document w) =
    Some (VisibilityChange (co_video connectOptions)).
Proof.
  unfold createChat. cbn [await].
  change (bind (ret r) ?k w0) with (k r w0). cbv beta.
  rewrite !bind_modify. unfold first_video_track.
  destruct (videoTracks (localParticipant r)) as [|publication rest];
    [discriminate|].
  change (bind (ret ?t) ?k ?x) with (k t x). cbv beta.
  rewrite bind_modify.
  intros H Hm.
  apply bind_inv in H as [[] [w1 [_ H]]].
  apply bind_inv in H as [[] [w2 [_ H]]].
  unfold on in H. rewrite !bind_modify in H. rewrite Hm in H.
  cbn in H. now injection H as <-.
Qed.

(** X5. On a mobile platform, once [createChat] has run to its end and
    until the room's [disconnected] event: when the page goes to the
    background, the held local video track is stopped and then
    unpublished, and the document is left as it is; when the page comes
    back, a new local video track is requested with the video constraints
    of the connect options, the old track being held until the new one
    arrives; the new one is then held and published. *)
Theorem background_and_foreground
    (isMobile : unit -> bool) r connectOptions w0 w es t t' :
  createChat isMobile (inr r) connectOptions w0 = Ret tt w ->
  isMobile tt = true ->
  no_disconnected es = true ->
  localVideoTrack (chat (run isMobile es w)) = Some t ->
  let w1 := fire isMobile (Visibilitychange true) (run isMobile es w) in
  let w2 := fire isMobile (Visibilitychange false) w1 in
  let w3 := fire isMobile (LocalVideoTrackCreated t') w2 in
  calls (sdk w1) =
    calls (sdk (run isMobile es w)) ++ [TrackStop t; UnpublishTrack t] /\
  document w1 = document (run isMobile es w) /\
  localVideoTrack (chat w1) = Some t /\
  calls (sdk w2) =
    calls (sdk w1) ++ [CreateLocalVideoTrack (co_video connectOptions)] /\
  localVideoTrack (chat w2) = Some t /\
  localVideoTrack (chat w3) = Some t' /\
  calls (sdk w3) = calls (sdk w2) ++ [PublishTrack t'].
Proof.
  intros Hc Hm Hno Ht.
  pose proof (createChat_visibilitychange isMobile r connectOptions w0 w Hc Hm) as Hv.
  destruct (handlers_stay isMobile es w Hno) as [Hh _].
  unfold the_handlers in Hh. injection Hh as _ _ Hh. rewrite Hv in Hh.
  set (w' := run isMobile es w) in *.
  assert (H1 : fire isMobile (Visibilitychange true) w' =
               with_sdk (fun s => put_calls (calls s ++ [UnpublishTrack t]) s)
                 (with_sdk (fun s => put_calls (calls s ++ [TrackStop t]) s) w')).
  { unfold fire, handle.
    change (bind (gets ?f) ?k ?x) with (k (f x) x). cbv beta.
    rewrite Hh. cbn [run_handler onVisibilityChange].
    unfold localVideoTrack_stop. rewrite bind_bind.
    change (bind (gets ?f) ?k ?x) with (k (f x) x). cbv beta.
    rewrite Ht. unfold call. rewrite bind_modify.
    change (bind (gets ?f) ?k ?x) with (k (f x) x). cbv beta.
    cbn [chat with_sdk]. rewrite Ht. reflexivity. }
  cbv zeta. rewrite H1.
  set (w1 := with_sdk _ (with_sdk _ w')).
  assert (H2 : fire isMobile (Visibilitychange false) w1 =
               with_chat (fun x => put_awaited (S (awaited x)) x)
                 (with_sdk (fun s => put_calls
                              (calls s ++ [CreateLocalVideoTrack (co_video connectOptions)]) s)
                    w1)).
  { unfold fire, handle.
    change (bind (gets ?f) ?k ?x) with (k (f x) x). cbv beta.
    change (onvisibilitychange (document w1)) with (onvisibilitychange (document w')).
    rewrite Hh. reflexivity. }
  rewrite H2.
  repeat split; try reflexivity.
  - unfold w1; cbn. now rewrite <- app_assoc.
  - exact Ht.
  - exact Ht.
Qed.

Lemma background_and_foreground_witness :
  let w := world (createChat on_phone (inr lobby) lobby_options (initial lobby_route)) in
  let es := [RoomParticipantConnected carol] in
  let t := {| name := 2; kind := video |} in
  let t' := {| name := 7; kind := video |} in
  let w1 := fire on_phone (Visibilitychange true) (run on_phone es w) in
  let w2 := fire on_phone (Visibilitychange false) w1 in
  let w3 := fire on_phone (LocalVideoTrackCreated t') w2 in
  calls (sdk w1) =
    calls (sdk (run on_phone es w)) ++ [TrackStop t; UnpublishTrack t] /\
  document w1 = document (run on_phone es w) /\
  localVideoTrack (chat w1) = Some t /\
  calls (sdk w2) =
    calls (sdk w1) ++ [CreateLocalVideoTrack (co_video lobby_options)] /\
  localVideoTrack (chat w2) = Some t /\
  localVideoTrack (chat w3) = Some t' /\
  calls (sdk w3) = calls (sdk w2) ++ [PublishTrack t'].
Proof.
  intros w es t t'.
  apply (background_and_foreground on_phone lobby lobby_options
           (initial lobby_route) w es t t').
  - vm_compute. reflexivity.
  - reflexivity.
  - reflexivity.
  - vm_compute. reflexivity.
Defined.

(* ===================================================================== *)
(** * Further properties: the label of the mute button *)
(* ===================================================================== *)

Lemma toggleMute_loop_label rest : forall visited w,
  Forall (fun publication =>
            is_kind audio publication = true -> track publication <> None) rest ->
  toggleMuteHTML
    (document
       (world
          (forEachMut store_local_tracks visited rest
             (fun publication =>
                if is_kind audio publication then
                  if isTrackEnabled publication then
                    set_toggleButton "Unmute" ;; track_set_enabled false publication
                  else
                    set_toggleButton "Mute" ;; track_set_enabled true publication
                else ret publication) w))) =
  label_after (toggleMuteHTML (document w)) (filter (is_kind audio) rest).
Proof.
  induction rest as [|x rest IH]; intros visited w Hall; [reflexivity|].
  inversion Hall as [|? ? Hx Hrest]; subst.
  cbn [forEachMut filter].
  destruct (is_kind audio x) eqn:Hk.
  - specialize (Hx eq_refl).
    destruct x as [s k [t|] b]; [|now elim Hx].
    destruct b; cbn [isTrackEnabled];
      unfold set_toggleButton, track_set_enabled; cbn [track];
      rewrite bind_bind, bind_modify;
      change (bind (ret ?a) ?k0 ?y) with (k0 a y); cbv beta;
      rewrite bind_modify, (IH _ _ Hrest); reflexivity.
  - change (bind (ret ?a) ?k0 ?y) with (k0 a y). cbv beta.
    rewrite bind_modify, (IH _ _ Hrest). reflexivity.
Qed.

Lemma label_after_snoc label pubs publication :
  label_after label (pubs ++ [publication]) =
  if isTrackEnabled publication then "Unmute" else "Mute".
Proof. unfold label_after. rewrite fold_left_app. reflexivity. Qed.

(** X6. When the component holds its room and the audio publications of
    the local participant carry their tracks, [toggleMute] leaves the
    button's label as it was if the local participant has no audio
    publication; otherwise the label follows the last audio publication
    alone: [Unmute] if that one was enabled (and is now disabled), [Mute]
    if it was disabled, whatever the state of the others. *)
Theorem toggleMute_label_follows_last_audio_track w r :
  room (vm w) = Some r ->
  Forall (fun publication => track publication <> None)
         (audioTracks (localParticipant r)) ->
  toggleMuteHTML (document (world (toggleMute w))) =
  match rev (audioTracks (localParticipant r)) with
  | [] => toggleMuteHTML (document w)
  | publication :: _ => if isTrackEnabled publication then "Unmute" else "Mute"
  end.
Proof.
  intros Hr Hall. unfold toggleMute.
  assert (Hroom : this_room w = Ret r w) by (unfold this_room; now rewrite Hr).
  rewrite (bind_Ret _ Hroom), toggleMute_loop_label.
  - fold (audioTracks (localParticipant r)).
    destruct (rev (audioTracks (localParticipant r))) as [|p ps] eqn:Hrev.
    + apply (f_equal (@rev _)) in Hrev. rewrite rev_involutive in Hrev.
      rewrite Hrev. reflexivity.
    + apply (f_equal (@rev _)) in Hrev. rewrite rev_involutive in Hrev.
      rewrite Hrev. cbn [rev]. apply label_after_snoc.
  - apply Forall_forall. intros x Hx Hk.
    rewrite Forall_forall in Hall. apply Hall.
    unfold audioTracks. apply filter_In. now split.
Qed.

Lemma toggleMute_label_follows_last_audio_track_witness :
  let second := {| trackSid := "MT9"; pkind := audio;
                   track := Some {| name := 9; kind := audio |};
                   isTrackEnabled := false |} in
  let r := {| localParticipant :=
                {| obj := 0; identity := "alice"; sid := "PA1";
                   tracks := [mic; cam; second] |};
              participants := [] |} in
  let w := with_vm (put_room (Some r)) (initial lobby_route) in
  toggleMuteHTML (document (world (toggleMute w))) =
  match rev (audioTracks (localParticipant r)) with
  | [] => toggleMuteHTML (document w)
  | publication :: _ => if isTrackEnabled publication then "Unmute" else "Mute"
  end.
Proof.
  intros second r w.
  apply (toggleMute_label_follows_last_audio_track w r).
  - reflexivity.
  - repeat constructor; discriminate.
Defined.

(* ===================================================================== *)
(** * Further properties: [disconnected] is handled once *)
(* ===================================================================== *)

Lemma off_disconnected_filter ls :
  filter is_room_listener (off_disconnected ls) =
  off_disconnected (filter is_room_listener ls).
Proof.
  induction ls as [|l ls IH]; [reflexivity|].
  destruct l; cbn; rewrite ?IH; reflexivity.
Qed.

Lemma sdk_updated_disconnected error w :
  sdk_updated (RoomDisconnected error) w = w.
Proof.
  destruct w as [[l ms s [r|] n t] d x c k]; reflexivity.
Qed.

Lemma fire_disconnected_unheard isMobile error w :
  room_listeners w = [OnParticipantConnected; OnParticipantDisconnected] ->
  fire isMobile (RoomDisconnected error) w = w.
Proof.
  intros Hl. unfold fire, handle, emit.
  rewrite bind_modify.
  change (bind (gets ?f) ?k ?x) with (k (f x) x). cbv beta.
  rewrite (emit_room_event isMobile (RoomDisconnected error) _ eq_refl).
  fold (sdk_updated (RoomDisconnected error) w).
  rewrite sdk_updated_disconnected. fold (room_listeners w). rewrite Hl.
  reflexivity.
Qed.

Lemma fire_disconnected_listeners isMobile error sids w :
  live sids w ->
  room_listeners (fire isMobile (RoomDisconnected error) w) =
  [OnParticipantConnected; OnParticipantDisconnected].
Proof.
  intros [_ _ Hl _ _ _].
  rewrite (fire_room_event isMobile (RoomDisconnected error) w eq_refl Hl).
  cbn [forEach listener].
  change (bind (ret tt) ?k) with (k tt). cbv beta.
  change (bind (ret tt) ?k) with (k tt). cbv beta.
  rewrite bind_ret_tt, bind_modify.
  assert (Hk : keeps (same room_listeners) (onDisconnected isMobile error))
    by page_keeps.
  rewrite Hk. rewrite sdk_updated_disconnected.
  unfold room_listeners in *. cbn. rewrite off_disconnected_filter, Hl.
  reflexivity.
Qed.

Lemma quiet_run_room_listeners isMobile es : forall w,
  no_room_event es = true ->
  room_listeners (run isMobile es w) = room_listeners w.
Proof.
  induction es as [|e es IH]; intros w Hq; [reflexivity|].
  rewrite run_cons.
  assert (He : is_room_event e = false /\ no_room_event es = true)
    by (destruct e; try discriminate; now split).
  destruct He as [He Hes].
  rewrite (IH _ Hes). apply (handle_room_listeners isMobile e He w).
Qed.

(** X7. The listener of the room's [disconnected] event runs once.  After
    a session that [createChat] set up has seen the room's
    [disconnected] event, and whatever other events of the page followed,
    a further [disconnected] event leaves the world exactly as it is: the
    promise, the document and the log of SDK calls do not change. *)
Theorem disconnected_is_handled_once
    (isMobile : unit -> bool) route room0 connectOptions w es error es' again :
  createChat isMobile (inr room0) connectOptions (initial route) = Ret tt w ->
  sdk_room room0 ->
  sdk_trace (room_sids room0) (es ++ RoomDisconnected error :: es') = true ->
  let w' := run isMobile (es ++ RoomDisconnected error :: es') w in
  fire isMobile (RoomDisconnected again) w' = w'.
Proof.
  intros Hc Hroom Htrace w'.
  pose proof (createChat_live isMobile route room0 connectOptions w Hc Hroom) as Hlive.
  destruct (sdk_trace_before_disconnected es _ error es' Htrace) as [Ht1 Hno].
  pose proof (live_run isMobile es _ w Hlive Ht1 Hno) as Hlive1.
  apply fire_disconnected_unheard.
  unfold w'. rewrite run_app, run_cons.
  rewrite quiet_run_room_listeners.
  - now apply fire_disconnected_listeners with (sids := connected_after (room_sids room0) es).
  - clear - Htrace. revert Htrace. generalize (room_sids room0).
    induction es as [|e es IH]; intros sids Htrace.
    + exact Htrace.
    + destruct e; cbn [app sdk_trace] in Htrace;
        try (now apply (IH _ Htrace)).
      * apply andb_prop in Htrace as [_ Htrace]. now apply (IH _ Htrace).
      * apply andb_prop in Htrace as [_ Htrace]. now apply (IH _ Htrace).
      * exfalso. clear - Htrace.
        induction es as [|e es IH]; cbn in Htrace; [discriminate|].
        destruct e; try discriminate; auto.
Qed.

Lemma disconnected_is_handled_once_witness :
  let w := world (createChat on_phone (inr lobby) lobby_options (initial lobby_route)) in
  let w' := run on_phone
              ([RoomParticipantConnected carol] ++
               RoomDisconnected None :: [ClickToggleMute]) w in
  fire on_phone (RoomDisconnected (Some TypeError)) w' = w'.
Proof.
  intros w.
  apply (disconnected_is_handled_once on_phone lobby_route lobby lobby_options w
           [RoomParticipantConnected carol] None [ClickToggleMute]
           (Some TypeError)).
  - vm_compute. reflexivity.
  - split; [|repeat constructor; discriminate].
    repeat constructor; simpl; intuition discriminate.
  - vm_compute. reflexivity.
Defined.

(* ===================================================================== *)
(** * Further properties: when the status message is shown *)
(* ===================================================================== *)

Lemma message_shown_refl w : message_shown w w.
Proof. unfold message_shown; auto. Qed.

Lemma message_shown_trans a b c :
  message_shown a b -> message_shown b c -> message_shown a c.
Proof. unfold message_shown; auto. Qed.

#[local] Hint Resolve message_shown_refl message_shown_trans : keeps.

Ltac leaf_message :=
  unfold same, message_shown, message;
  cbn;
  solve [ reflexivity | auto | tauto | congruence ].

Ltac page_keeps_message :=
  repeat first [keeps_step leaf_message | progress page_unfold].

Lemma handle_the_message isMobile e :
  shows_message e = false -> hides_message e = false ->
  keeps (same the_message) (handle isMobile e).
Proof.
  destruct e; try discriminate; intros _ _; unfold the_message; page_keeps_message.
Qed.

Lemma sdk_trace_snoc es : forall sids e,
  is_room_event e = true ->
  sdk_trace sids (es ++ [e]) = true ->
  sdk_trace sids es = true /\ no_disconnected es = true /\
  sdk_trace (connected_after sids es) [e] = true.
Proof.
  induction es as [|x es IH]; intros sids e He Htrace.
  - now repeat split.
  - destruct x; cbn [app sdk_trace no_disconnected connected_after] in *;
      try (now apply IH).
    + apply andb_prop in Htrace as [Hfresh Htrace].
      rewrite Hfresh. now apply IH.
    + apply andb_prop in Htrace as [Hin Htrace].
      rewrite Hin. now apply IH.
    + exfalso. clear - He Htrace.
      induction es as [|x es IH]; cbn in Htrace.
      * destruct e; discriminate.
      * destruct x; try discriminate; auto.
Qed.

Lemma live_participantConnected_display isMobile p sids w :
  live sids w ->
  messageDisplay (document (fire isMobile (RoomParticipantConnected p) w)) = "none".
Proof.
  intros Hlive.
  destruct (live_room sids w Hlive) as [r [Hr _]].
  destruct Hlive as [_ _ Hl _ _ _].
  rewrite (fire_room_event isMobile (RoomParticipantConnected p) w eq_refl Hl).
  cbn [forEach listener].
  set (e := RoomParticipantConnected p).
  assert (Hroom : this_room (sdk_updated e w)
                  = Ret (sdk_update e r) (sdk_updated e w)).
  { unfold this_room, sdk_updated. cbn. now rewrite Hr. }
  rewrite world_bind_ret_ret, (bind_Ret _ Hroom).
  unfold participantConnected.
  rewrite world_bind, setupParticipantContainer_Ret.
  match goal with |- context [world (?m ?x)] =>
    assert (Hk : keeps (same (fun w => messageDisplay (document w))) m)
      by page_keeps_message;
    rewrite (Hk x)
  end.
  reflexivity.
Qed.

Lemma live_participantDisconnected_message isMobile p sids w :
  live sids w -> mem (sid p) (tl sids) = true ->
  messageDisplay (document (fire isMobile (RoomParticipantDisconnected p) w)) = "flex" /\
  messageState (vm (fire isMobile (RoomParticipantDisconnected p) w)) = "disconnect".
Proof.
  intros Hlive Hin.
  destruct (live_room sids w Hlive) as [r [Hr Hrs]].
  destruct Hlive as [_ Hi Hl _ _ _].
  apply mem_In in Hin.
  rewrite (fire_room_event isMobile (RoomParticipantDisconnected p) w eq_refl Hl).
  cbn [forEach listener].
  change (bind (ret tt) ?k) with (k tt). cbv beta.
  rewrite world_bind_ret_ret.
  destruct (index_of_id_In (sid p) (participantsEl (document w))) as [i Hidx].
  { fold (container_ids w). rewrite Hi. destruct sids; [contradiction|now right]. }
  rewrite (participantDisconnected_Ret p
             (sdk_updated (RoomParticipantDisconnected p) w) i Hidx).
  split; reflexivity.
Qed.

Lemma live_disconnected_message isMobile error sids w :
  live sids w ->
  messageDisplay (document (fire isMobile (RoomDisconnected error) w)) = "flex" /\
  messageState (vm (fire isMobile (RoomDisconnected error) w)) = "disconnect".
Proof.
  intros Hlive.
  destruct (live_room sids w Hlive) as [r [Hr Hrs]].
  destruct Hlive as [_ Hi Hl Ht _ _].
  destruct (localVideoTrack (chat w)) as [t|] eqn:Htrack; [|now elim Ht].
  rewrite (fire_room_event isMobile (RoomDisconnected error) w eq_refl Hl).
  cbn [forEach listener].
  change (bind (ret tt) ?k) with (k tt). cbv beta.
  change (bind (ret tt) ?k) with (k tt). cbv beta.
  rewrite bind_ret_tt, bind_modify.
  unfold onDisconnected. cbv beta iota delta [truthy].
  rewrite bind_modify, bind_bind, bind_modify, bind_modify.
  unfold localVideoTrack_stop.
  rewrite bind_bind.
  change (bind (gets ?f) ?k ?x) with (k (f x) x). cbv beta.
  cbn [chat with_document with_window with_sdk sdk_updated with_vm].
  rewrite Htrack. unfold call. rewrite bind_modify.
  match goal with |- context [bind this_room ?k ?x] =>
    assert (Hroom : this_room x = Ret r x)
      by (unfold this_room; cbn; now rewrite Hr);
    rewrite (bind_Ret k Hroom); set (w3 := x)
  end.
  assert (Hidx : index_of_id (sid (localParticipant r)) (participantsEl (document w3))
                 = Some 0).
  { assert (Hi3 : container_ids w3 = sids) by exact Hi.
    unfold container_ids in Hi3.
    destruct (participantsEl (document w3)) as [|c cs]; rewrite <- Hrs in Hi3;
      [discriminate|].
    cbn in Hi3. injection Hi3 as Hc _. cbn. now rewrite Hc, String.eqb_refl. }
  rewrite (bind_Ret _ (participantDisconnected_Ret (localParticipant r) w3 0 Hidx)).
  match goal with |- context [world (?m ?x)] =>
    assert (Hk : keeps message_shown m) by page_keeps_message;
    apply (Hk x)
  end.
  split; reflexivity.
Qed.

(** X8. In a session that [createChat] set up, the last event decides
    whether the status message is shown.  A [participantConnected] event
    hides it.  A [participantDisconnected] event, the room's
    [disconnected] event and a click on Disconnect show it, reading
    [Participant left the call.] (also when other participants remain,
    and also when it is the local participant who left).  Every other
    event leaves the display and the text as they are. *)
Theorem message_follows_last_event
    (isMobile : unit -> bool) route room0 connectOptions w es e :
  createChat isMobile (inr room0) connectOptions (initial route) = Ret tt w ->
  sdk_room room0 ->
  sdk_trace (room_sids room0) (es ++ [e]) = true ->
  let w' := run isMobile (es ++ [e]) w in
  if hides_message e then messageDisplay (document w') = "none"
  else if shows_message e then
    messageDisplay (document w') = "flex" /\
    message w' = Some "Participant left the call."
  else
    messageDisplay (document w') = messageDisplay (document (run isMobile es w)) /\
    message w' = message (run isMobile es w).
Proof.
  intros Hc Hroom Htrace w'.
  unfold w'. rewrite run_app. cbn [run fold_left].
  fold (run isMobile es w). set (w1 := run isMobile es w).
  pose proof (createChat_live isMobile route room0 connectOptions w Hc Hroom) as Hlive.
  assert (Hm : messages (vm (fire isMobile e w1)) = messages (vm (initial route))).
  { pose proof (createChat_message_step isMobile (inr room0) connectOptions
                  (initial route)) as [H1 _].
    rewrite Hc in H1. cbn [world] in H1.
    destruct (run_message_step isMobile es w) as [H2 _].
    destruct (handle_message_step isMobile e w1) as [H3 _].
    unfold fire. fold w1 in H2. congruence. }
  assert (Htext : messageState (vm (fire isMobile e w1)) = "disconnect" ->
                  message (fire isMobile e w1) = Some "Participant left the call.").
  { intros Hs. unfold message. rewrite Hm, Hs. reflexivity. }
  assert (Hroom_event : is_room_event e = true ->
            live (connected_after (room_sids room0) es) w1 /\
            sdk_trace (connected_after (room_sids room0) es) [e] = true).
  { intros He.
    destruct (sdk_trace_snoc es _ e He Htrace) as [Ht1 [Hno Hlast]].
    split; [now apply live_run|exact Hlast]. }
  destruct e; cbn [hides_message shows_message];
    try (match goal with
         | |- context [fire isMobile ?x w1] =>
             pose proof (handle_the_message isMobile x eq_refl eq_refl w1) as H
         end;
         unfold same, the_message in H; injection H as H1 H2;
         split; assumption).
  - (* ClickDisconnect *)
    assert (Hk : keeps (same (fun w => (messageDisplay (document w), messageState (vm w))))
                   room_disconnect) by page_keeps_message.
    assert (Hd : messageDisplay (document (fire isMobile ClickDisconnect w1)) = "flex" /\
                 messageState (vm (fire isMobile ClickDisconnect w1)) = "disconnect").
    { unfold fire, handle, disconnect. rewrite world_bind.
      change (setMessage "disconnect" w1)
        with (Ret tt (with_document (put_messageDisplay "flex")
                        (with_vm (put_messageState "disconnect") w1))).
      cbv iota beta.
      match goal with |- context [world (room_disconnect ?x)] =>
        pose proof (Hk x) as Hx
      end.
      unfold same in Hx. injection Hx as H1 H2. now rewrite H1, H2. }
    destruct Hd as [Hd1 Hd2]. split; [exact Hd1|now apply Htext].
  - (* participantConnected *)
    destruct (Hroom_event eq_refl) as [Hlive1 _].
    now apply live_participantConnected_display with (sids := connected_after (room_sids room0) es).
  - (* participantDisconnected *)
    destruct (Hroom_event eq_refl) as [Hlive1 Hlast].
    cbn [sdk_trace] in Hlast. apply andb_prop in Hlast as [Hin _].
    destruct (live_participantDisconnected_message isMobile participant _ w1 Hlive1 Hin)
      as [H1 H2].
    split; [exact H1|now apply Htext].
  - (* disconnected *)
    destruct (Hroom_event eq_refl) as [Hlive1 _].
    destruct (live_disconnected_message isMobile error _ w1 Hlive1) as [H1 H2].
    split; [exact H1|now apply Htext].
Qed.

Lemma message_follows_last_event_witness :
  let w := world (createChat on_phone (inr lobby) lobby_options (initial lobby_route)) in
  let es := [RoomParticipantConnected carol; ClickToggleMute] in
  let e := RoomParticipantDisconnected bob in
  let w' := run on_phone (es ++ [e]) w in
  if hides_message e then messageDisplay (document w') = "none"
  else if shows_message e then
    messageDisplay (document w') = "flex" /\
    message w' = Some "Participant left the call."
  else
    messageDisplay (document w') = messageDisplay (document (run on_phone es w)) /\
    message w' = message (run on_phone es w).
Proof.
  intros w es e.
  apply (message_follows_last_event on_phone lobby_route lobby lobby_options w es e).
  - vm_compute. reflexivity.
  - split; [|repeat constructor; discriminate].
    repeat constructor; simpl; intuition discriminate.
  - vm_compute. reflexivity.
Defined.

(* ===================================================================== *)
(** * Further properties: attaching and detaching tracks *)
(* ===================================================================== *)

Lemma index_of_tag_set_opacity k v es : forall j,
  index_of_tag k (update_nth j (set_opacity v) es) = index_of_tag k es.
Proof.
  induction es as [|e es IH]; intros [|j]; simpl; try reflexivity.
  now rewrite IH.
Qed.

Lemma index_of_media_set_opacity s k v j cs : forall i,
  index_of_media s k
    (update_nth i
       (fun c => set_children (update_nth j (set_opacity v) (children c)) c) cs) =
  index_of_media s k cs.
Proof.
  induction cs as [|c cs IH]; intros [|i]; simpl; try reflexivity.
  - now rewrite index_of_tag_set_opacity.
  - now rewrite IH.
Qed.

Lemma nth_error_update_nth {A} (f : A -> A) l : forall i,
  nth_error (update_nth i f l) i = option_map f (nth_error l i).
Proof.
  induction l as [|x l IH]; intros [|i]; simpl; try reflexivity. apply IH.
Qed.

Lemma nth_error_update_nth_other {A} (f : A -> A) l : forall i i',
  i <> i' -> nth_error (update_nth i f l) i' = nth_error l i'.
Proof.
  induction l as [|x l IH]; intros [|i] [|i'] H; simpl; try reflexivity.
  - now elim H.
  - apply IH. congruence.
Qed.

Lemma index_of_tag_Some k es : forall j,
  index_of_tag k es = Some j ->
  exists e, nth_error es j = Some e /\ tagName e = k.
Proof.
  induction es as [|e es IH]; simpl; intros j Hj; [discriminate|].
  destruct (Kind_eqb (tagName e) k) eqn:Hk.
  - injection Hj as <-. exists e. split; [reflexivity|].
    destruct (tagName e), k; simpl in Hk; congruence.
  - destruct (index_of_tag k es) as [j'|]; [|discriminate].
    injection Hj as <-. now apply IH.
Qed.

Lemma index_of_media_Some s k cs : forall i j,
  index_of_media s k cs = Some (i, j) ->
  exists c e,
    nth_error cs i = Some c /\ nth_error (children c) j = Some e /\ tagName e = k.
Proof.
  induction cs as [|c cs IH]; simpl; intros i j H; [discriminate|].
  destruct (if id c =? s then index_of_tag k (children c) else None) as [j0|] eqn:Hc.
  - injection H as <- <-.
    destruct (id c =? s); [|discriminate].
    destruct (index_of_tag_Some k _ _ Hc) as [e [He Hk]].
    now exists c, e.
  - destruct (index_of_media s k cs) as [[i0 j0]|]; [|discriminate].
    injection H as <- <-. now apply IH.
Qed.

Lemma media_at_with_opacity ij v cs :
  media_at ij (with_opacity ij v cs) = option_map (set_opacity v) (media_at ij cs).
Proof.
  unfold media_at, with_opacity. rewrite nth_error_update_nth.
  destruct (nth_error cs (fst ij)) as [c|]; [|reflexivity].
  cbn. apply nth_error_update_nth.
Qed.

Lemma media_at_with_opacity_other ij ij' v cs :
  ij <> ij' -> media_at ij' (with_opacity ij v cs) = media_at ij' cs.
Proof.
  intros H. unfold media_at, with_opacity.
  destruct (Nat.eq_dec (fst ij) (fst ij')) as [Hi|Hi].
  - rewrite Hi, nth_error_update_nth.
    destruct (nth_error cs (fst ij')) as [c|]; [|reflexivity].
    cbn. apply nth_error_update_nth_other.
    intros Hj. apply H. destruct ij, ij'; cbn in *; congruence.
  - now rewrite nth_error_update_nth_other.
Qed.

Lemma set_media_opacity_Ret s k v w ij :
  index_of_media s k (participantsEl (document w)) = Some ij ->
  (media <- querySelector_media s k ;; set_style_opacity media v) w =
  Ret tt (with_document
            (fun d => put_participantsEl (with_opacity ij v (participantsEl d)) d) w).
Proof.
  intros H. unfold querySelector_media.
  change (bind (gets ?f) ?k0 ?x) with (k0 (f x) x). cbv beta.
  rewrite H. destruct ij. reflexivity.
Qed.

Lemma opacity_of_with_opacity s k v w ij k' :
  index_of_media s k (participantsEl (document w)) = Some ij ->
  opacity_of s k'
    (with_document
       (fun d => put_participantsEl (with_opacity ij v (participantsEl d)) d) w) =
  if Kind_eqb k' k then Some v else opacity_of s k' w.
Proof.
  intros H. unfold opacity_of. cbn [document with_document participantsEl put_participantsEl].
  unfold with_opacity at 1. rewrite index_of_media_set_opacity.
  destruct ij as [i j].
  destruct (index_of_media_Some s k _ i j H) as [c [e [Hc [He Hk]]]].
  destruct (Kind_eqb k' k) eqn:Hkk.
  - assert (k' = k) by (destruct k', k; simpl in Hkk; congruence). subst k'.
    rewrite H, media_at_with_opacity. unfold media_at. cbn [fst snd].
    rewrite Hc, He. reflexivity.
  - destruct (index_of_media s k' (participantsEl (document w))) as [[i' j']|] eqn:H';
      [|reflexivity].
    rewrite media_at_with_opacity_other; [reflexivity|].
    intros Heq. injection Heq as <- <-.
    destruct (index_of_media_Some s k' _ i j H') as [c' [e' [Hc' [He' Hk']]]].
    rewrite Hc in Hc'. injection Hc' as <-. rewrite He in He'. injection He' as <-.
    subst. destruct (tagName e); discriminate.
Qed.

Lemma opacity_of_None s k w :
  opacity_of s k w = None <-> index_of_media s k (participantsEl (document w)) = None.
Proof.
  unfold opacity_of.
  destruct (index_of_media s k (participantsEl (document w))) as [[i j]|] eqn:H.
  - destruct (index_of_media_Some s k _ i j H) as [c [e [Hc [He _]]]].
    unfold media_at. cbn [fst snd]. rewrite Hc, He. split; discriminate.
  - tauto.
Qed.

(** What [attachTrack] and [detachTrack] do, read through the selector. *)
Lemma attachTrack_spec t p w :
  match opacity_of (sid p) (kind t) w with
  | None => attachTrack t p w = Throw TypeError w
  | Some _ =>
      exists ij,
        index_of_media (sid p) (kind t) (participantsEl (document w)) = Some ij /\
        attachTrack t p w =
        Ret tt
          (with_sdk (fun s => put_calls (calls s ++ [TrackAttach t (sid p) (kind t)]) s)
             (with_document
                (fun d => put_participantsEl (with_opacity ij "" (participantsEl d)) d)
                w))
  end.
Proof.
  destruct (opacity_of (sid p) (kind t) w) eqn:Ho.
  - destruct (index_of_media (sid p) (kind t) (participantsEl (document w)))
      as [ij|] eqn:Hi.
    + exists ij. split; [reflexivity|].
      unfold attachTrack.
      change (media <- querySelector_media (sid p) (kind t) ;;
              set_style_opacity media "" ;; call (TrackAttach t (sid p) (kind t)))
        with (bind (querySelector_media (sid p) (kind t))
                (fun media => bind (set_style_opacity media "")
                                (fun _ => call (TrackAttach t (sid p) (kind t))))).
      rewrite <- bind_bind.
      rewrite (bind_Ret _ (set_media_opacity_Ret _ _ "" w ij Hi)). reflexivity.
    + apply opacity_of_None in Hi. congruence.
  - apply opacity_of_None in Ho. unfold attachTrack, querySelector_media.
    change (bind (gets ?f) ?k0 ?x) with (k0 (f x) x). cbv beta.
    rewrite Ho. reflexivity.
Qed.

Lemma detachTrack_spec t p w :
  match opacity_of (sid p) (kind t) w with
  | None => detachTrack t p w = Throw TypeError w
  | Some _ =>
      exists ij,
        index_of_media (sid p) (kind t) (participantsEl (document w)) = Some ij /\
        detachTrack t p w =
        Ret tt
          (with_sdk (fun s => put_calls (calls s ++ [TrackDetach t (sid p) (kind t)]) s)
             (with_document
                (fun d => put_participantsEl (with_opacity ij "0" (participantsEl d)) d)
                w))
  end.
Proof.
  destruct (opacity_of (sid p) (kind t) w) eqn:Ho.
  - destruct (index_of_media (sid p) (kind t) (participantsEl (document w)))
      as [ij|] eqn:Hi.
    + exists ij. split; [reflexivity|].
      unfold detachTrack.
      change (media <- querySelector_media (sid p) (kind t) ;;
              set_style_opacity media "0" ;; call (TrackDetach t (sid p) (kind t)))
        with (bind (querySelector_media (sid p) (kind t))
                (fun media => bind (set_style_opacity media "0")
                                (fun _ => call (TrackDetach t (sid p) (kind t))))).
      rewrite <- bind_bind.
      rewrite (bind_Ret _ (set_media_opacity_Ret _ _ "0" w ij Hi)). reflexivity.
    + apply opacity_of_None in Hi. congruence.
  - apply opacity_of_None in Ho. unfold detachTrack, querySelector_media.
    change (bind (gets ?f) ?k0 ?x) with (k0 (f x) x). cbv beta.
    rewrite Ho. reflexivity.
Qed.

Lemma update_nth_twice {A} (f g : A -> A) l : forall i,
  update_nth i f (update_nth i g l) = update_nth i (fun x => f (g x)) l.
Proof.
  induction l as [|x l IH]; intros [|i]; simpl; try reflexivity. now rewrite IH.
Qed.

Lemma update_nth_fixed {A} (f : A -> A) l : forall i,
  (forall x, nth_error l i = Some x -> f x = x) -> update_nth i f l = l.
Proof.
  induction l as [|x l IH]; intros [|i] H; simpl; try reflexivity.
  - now rewrite H.
  - now rewrite IH.
Qed.

Lemma with_opacity_back ij cs :
  option_map opacity (media_at ij cs) = Some "0" ->
  with_opacity ij "0" (with_opacity ij "" cs) = cs.
Proof.
  intros H. unfold with_opacity. rewrite update_nth_twice.
  apply update_nth_fixed. intros c Hc. cbn.
  rewrite update_nth_twice.
  rewrite update_nth_fixed; [now destruct c|].
  intros e He. unfold media_at in H. rewrite Hc, He in H. cbn in H.
  injection H as H. destruct e; cbn in *. now subst.
Qed.

(** X9. [attachTrack] and [detachTrack] throw a [TypeError] and change
    nothing when the participant's container has no element of the
    track's kind (no container, or a data track).  Otherwise [attachTrack]
    returns, having revealed that element (inline opacity empty) and
    attached the track to it; [detachTrack] then returns, having hidden
    the element again (opacity 0) and detached the track; no container is
    added or removed, and where the element was hidden before, the
    document is back as it was. *)
Theorem attach_then_detach t participant w :
  match opacity_of (sid participant) (kind t) w with
  | None =>
      attachTrack t participant w = Throw TypeError w /\
      detachTrack t participant w = Throw TypeError w
  | Some o =>
      exists w1 w2,
        attachTrack t participant w = Ret tt w1 /\
        opacity_of (sid participant) (kind t) w1 = Some "" /\
        container_ids w1 = container_ids w /\
        detachTrack t participant w1 = Ret tt w2 /\
        opacity_of (sid participant) (kind t) w2 = Some "0" /\
        container_ids w2 = container_ids w /\
        calls (sdk w2) =
          calls (sdk w) ++
          [TrackAttach t (sid participant) (kind t);
           TrackDetach t (sid participant) (kind t)] /\
        (o = "0" -> document w2 = document w)
  end.
Proof.
  pose proof (attachTrack_spec t participant w) as Ha.
  pose proof (detachTrack_spec t participant w) as Hd0.
  destruct (opacity_of (sid participant) (kind t) w) as [o|] eqn:Ho; [|now split].
  clear Hd0. destruct Ha as [ij [Hi Ha]].
  eexists. 
  match type of Ha with _ = Ret tt ?x => set (w1 := x) in * end.
  assert (Ho1 : opacity_of (sid participant) (kind t) w1 = Some "").
  { unfold w1.
    change (opacity_of (sid participant) (kind t) (with_sdk ?f ?x))
      with (opacity_of (sid participant) (kind t) x).
    rewrite (opacity_of_with_opacity _ _ "" w ij (kind t) Hi).
    now destruct (kind t). }
  pose proof (detachTrack_spec t participant w1) as Hd.
  rewrite Ho1 in Hd. destruct Hd as [ij1 [Hi1 Hd]].
  assert (Hij : ij1 = ij).
  { unfold w1 in Hi1. cbn in Hi1. unfold with_opacity in Hi1.
    rewrite index_of_media_set_opacity in Hi1. congruence. }
  subst ij1.
  eexists. split; [exact Ha|]. split; [exact Ho1|].
  split; [unfold w1, container_ids, with_opacity; cbn; apply update_nth_map_id|].
  split; [exact Hd|].
  split.
  { change (opacity_of (sid participant) (kind t) (with_sdk ?f ?x))
      with (opacity_of (sid participant) (kind t) x).
    rewrite (opacity_of_with_opacity _ _ "0" w1 ij (kind t) Hi1).
    now destruct (kind t). }
  split.
  { unfold w1, container_ids, with_opacity; cbn.
    now rewrite !update_nth_map_id. }
  split; [unfold w1; cbn; now rewrite <- app_assoc|].
  intros ->. unfold w1. cbn.
  rewrite with_opacity_back.
  - now destruct (document w).
  - unfold opacity_of in Ho. now rewrite Hi in Ho.
Qed.

(* ===================================================================== *)
(** * Further properties: the tracks of a participant that connects *)
(* ===================================================================== *)

Lemma index_of_media_snoc s k cs c :
  ~ In s (map id cs) -> id c = s ->
  index_of_media s k (cs ++ [c]) =
  option_map (fun j => (List.length cs, j)) (index_of_tag k (children c)).
Proof.
  intros Hs Hc. induction cs as [|a cs IH]; simpl.
  - rewrite Hc, String.eqb_refl. now destruct (index_of_tag k (children c)).
  - destruct (String.eqb_spec (id a) s) as [Heq|Hne]; [elim Hs; now left|].
    rewrite IH by (intros H; apply Hs; now right).
    now destruct (index_of_tag k (children c)).
Qed.

Lemma setupParticipantContainer_opacity_of participant room0 className w k :
  ~ In (sid participant) (container_ids w) ->
  opacity_of (sid participant) k
    (world (setupParticipantContainer participant room0 className w)) =
  match k with
  | datatrack => None
  | _ => Some "0"
  end.
Proof.
  intros Hs. rewrite setupParticipantContainer_Ret.
  unfold opacity_of. cbn [world document with_document participantsEl put_participantsEl].
  assert (Hdoc : participantsEl
             (document (if negb (className =? "local")
                        then with_document (put_messageDisplay "none") w
                        else w)) = participantsEl (document w))
    by (destruct (negb (className =? "local")); reflexivity).
  rewrite Hdoc.
  rewrite index_of_media_snoc by (auto; reflexivity).
  destruct k; cbn; try reflexivity;
    unfold media_at; cbn [fst snd];
    rewrite nth_error_app2, Nat.sub_diag by apply Nat.le_refl; reflexivity.
Qed.

Lemma trackPublished_spec publication p w :
  (forall t, track publication = Some t ->
             opacity_of (sid p) (kind t) w <> None) ->
  exists w1,
    trackPublished publication p w = Ret tt w1 /\
    (forall k, opacity_of (sid p) k w1 =
               if carries k publication then Some "" else opacity_of (sid p) k w) /\
    container_ids w1 = container_ids w /\
    listeners (sdk w1) = listeners (sdk w) ++ registrations p publication.
Proof.
  intros Ht. unfold trackPublished, carries.
  destruct (track publication) as [t|].
  - specialize (Ht t eq_refl).
    pose proof (attachTrack_spec t p w) as Ha.
    destruct (opacity_of (sid p) (kind t) w) eqn:Ho; [|now elim Ht].
    destruct Ha as [ij [Hi Ha]].
    rewrite (bind_Ret _ Ha). eexists. split; [reflexivity|].
    split; [|split].
    + intros k.
      change (opacity_of (sid p) k (with_sdk ?f ?x)) with (opacity_of (sid p) k x).
      change (opacity_of (sid p) k (with_sdk ?f ?x)) with (opacity_of (sid p) k x).
      change (opacity_of (sid p) k (with_sdk ?f ?x)) with (opacity_of (sid p) k x).
      apply (opacity_of_with_opacity _ _ "" w ij k Hi).
    + unfold container_ids, with_opacity; cbn. apply update_nth_map_id.
    + cbn. now rewrite <- app_assoc.
  - eexists. split; [reflexivity|]. split; [|split].
    + reflexivity.
    + reflexivity.
    + cbn. now rewrite <- app_assoc.
Qed.

Lemma forEach_trackPublished p pubs : forall w,
  opacity_of (sid p) audio w <> None ->
  opacity_of (sid p) video w <> None ->
  forallb media_only pubs = true ->
  exists w',
    forEach pubs (fun publication => trackPublished publication p) w = Ret tt w' /\
    (forall k, opacity_of (sid p) k w' =
               if existsb (carries k) pubs then Some "" else opacity_of (sid p) k w) /\
    container_ids w' = container_ids w /\
    listeners (sdk w') = listeners (sdk w) ++ flat_map (registrations p) pubs.
Proof.
  induction pubs as [|x pubs IH]; intros w Ha Hv Hall.
  - exists w. repeat split; auto. cbn. now rewrite app_nil_r.
  - cbn [forallb] in Hall. apply andb_prop in Hall as [Hx Hall].
    destruct (trackPublished_spec x p w) as [w1 [H1 [Ho1 [Hi1 Hl1]]]].
    { intros t Ht. unfold media_only, carries in Hx. rewrite Ht in Hx.
      destruct (kind t); [exact Ha|exact Hv|discriminate]. }
    cbn [forEach]. rewrite (bind_Ret _ H1).
    destruct (IH w1) as [w' [H' [Ho' [Hi' Hl']]]]; try exact Hall.
    { rewrite Ho1. now destruct (carries audio x). }
    { rewrite Ho1. now destruct (carries video x). }
    exists w'. split; [exact H'|]. split; [|split].
    + intros k. rewrite Ho', Ho1. cbn [existsb].
      destruct (carries k x), (existsb (carries k) pubs); reflexivity.
    + congruence.
    + rewrite Hl', Hl1, <- app_assoc. reflexivity.
Qed.

(** X10. For a participant whose sid no container has yet and who carries
    no subscribed data track, [participantConnected] returns; the
    participant's container is the one added; its [<audio>] element is
    revealed (inline opacity empty) exactly when a publication of the
    participant carries a subscribed audio track, and is otherwise hidden
    (opacity 0), and likewise its [<video>] element; and the listeners
    registered are, in order, a [subscribed] and an [unsubscribed]
    listener for each publication, then the participant's
    [trackPublished] listener. *)
Theorem participantConnected_reveals_subscribed_tracks
    participant room0 className w :
  ~ In (sid participant) (container_ids w) ->
  forallb media_only (tracks participant) = true ->
  exists w',
    participantConnected participant room0 className w = Ret tt w' /\
    container_ids w' = container_ids w ++ [sid participant] /\
    opacity_of (sid participant) audio w' =
      Some (if existsb (carries audio) (tracks participant) then "" else "0") /\
    opacity_of (sid participant) video w' =
      Some (if existsb (carries video) (tracks participant) then "" else "0") /\
    listeners (sdk w') =
      listeners (sdk w) ++
      flat_map (registrations participant) (tracks participant) ++
      [OnTrackPublished participant].
Proof.
  intros Hs Hall. unfold participantConnected.
  pose proof (setupParticipantContainer_opacity_of participant room0 className w)
    as Ho.
  pose proof (setupParticipantContainer_Ret participant room0 className w) as Hset.
  match type of Hset with _ = Ret tt ?x => set (w0 := x) in * end.
  rewrite Hset in Ho. cbn [world] in Ho.
  rewrite (bind_Ret _ Hset).
  destruct (forEach_trackPublished participant (tracks participant) w0)
    as [w1 [H1 [Ho1 [Hi1 Hl1]]]]; try exact Hall.
  { rewrite (Ho audio Hs). discriminate. }
  { rewrite (Ho video Hs). discriminate. }
  rewrite (bind_Ret _ H1).
  eexists. split; [reflexivity|].
  split; [|split; [|split]].
  - change (container_ids (with_sdk ?f ?x)) with (container_ids x).
    rewrite Hi1. unfold w0, container_ids. cbn.
    destruct (negb (className =? "local")); cbn; now rewrite map_app.
  - change (opacity_of ?s ?k (with_sdk ?f ?x)) with (opacity_of s k x).
    rewrite Ho1, (Ho audio Hs).
    now destruct (existsb (carries audio) (tracks participant)).
  - change (opacity_of ?s ?k (with_sdk ?f ?x)) with (opacity_of s k x).
    rewrite Ho1, (Ho video Hs).
    now destruct (existsb (carries video) (tracks participant)).
  - cbn. rewrite Hl1. unfold w0.
    destruct (negb (className =? "local")); cbn; now rewrite <- app_assoc.
Qed.

Lemma participantConnected_reveals_subscribed_tracks_witness :
  let w := world (participantConnected alice lobby "local" (initial lobby_route)) in
  exists w',
    participantConnected bob lobby "participant" w = Ret tt w' /\
    container_ids w' = container_ids w ++ [sid bob] /\
    opacity_of (sid bob) audio w' =
      Some (if existsb (carries audio) (tracks bob) then "" else "0") /\
    opacity_of (sid bob) video w' =
      Some (if existsb (carries video) (tracks bob) then "" else "0") /\
    listeners (sdk w') =
      listeners (sdk w) ++
      flat_map (registrations bob) (tracks bob) ++ [OnTrackPublished bob].
Proof.
  intros w.
  apply (participantConnected_reveals_subscribed_tracks bob lobby "participant" w).
  - vm_compute. intuition discriminate.
  - reflexivity.
Defined.

(* ===================================================================== *)
(** * Further properties: tracks subscribed to later, and data tracks *)
(* ===================================================================== *)

Lemma forEach_app {A} (f : A -> M unit) l1 l2 w :
  forEach (l1 ++ l2) f w = (forEach l1 f ;; forEach l2 f) w.
Proof.
  revert w; induction l1 as [|x l1 IH]; intros w; [reflexivity|].
  cbn [app forEach]. rewrite bind_bind.
  destruct (f x w) as [a w1|e w1] eqn:Hf.
  - rewrite !(bind_Ret _ Hf). apply IH.
  - unfold bind. now rewrite Hf.
Qed.

Lemma forEach_unheard isMobile sub publication t ls : forall w,
  forallb (not_on (trackSid publication)) ls = true ->
  forEach ls (fun l => listener isMobile l (publication_event sub publication t)) w
  = Ret tt w.
Proof.
  induction ls as [|l ls IH]; intros w Hall; [reflexivity|].
  cbn [forallb] in Hall. apply andb_prop in Hall as [Hl Hall].
  cbn [forEach].
  assert (H : listener isMobile l (publication_event sub publication t) w = Ret tt w).
  { destruct l, sub; cbn in *; try reflexivity;
      rewrite String.eqb_sym; apply negb_true_iff in Hl; now rewrite Hl. }
  rewrite (bind_Ret _ H). now apply IH.
Qed.

Lemma forEach_registrations isMobile sub publication t p pubs : forall w,
  opacity_of (sid p) (kind t) w <> None ->
  exists w',
    forEach (flat_map (registrations p) pubs)
      (fun l => listener isMobile l (publication_event sub publication t)) w
    = Ret tt w' /\
    opacity_of (sid p) (kind t) w' =
      (if existsb (fun x => trackSid publication =? trackSid x) pubs
       then Some (if sub then "" else "0")
       else opacity_of (sid p) (kind t) w) /\
    container_ids w' = container_ids w /\
    listeners (sdk w') = listeners (sdk w).
Proof.
  induction pubs as [|x pubs IH]; intros w Ho.
  - exists w. repeat split; reflexivity.
  - cbn [flat_map registrations app forEach existsb].
    assert (Hstep : exists w1,
              (listener isMobile (OnSubscribed (trackSid x) p)
                 (publication_event sub publication t) ;;
               listener isMobile (OnUnsubscribed (trackSid x) p)
                 (publication_event sub publication t) ;;
               ret tt) w = Ret tt w1 /\
              opacity_of (sid p) (kind t) w1 =
                (if trackSid publication =? trackSid x
                 then Some (if sub then "" else "0")
                 else opacity_of (sid p) (kind t) w) /\
              container_ids w1 = container_ids w /\
              listeners (sdk w1) = listeners (sdk w)).
    { destruct (trackSid publication =? trackSid x) eqn:Hx.
      - destruct sub; cbn [publication_event listener]; rewrite Hx.
        + pose proof (attachTrack_spec t p w) as Ha.
          destruct (opacity_of (sid p) (kind t) w); [|now elim Ho].
          destruct Ha as [ij [Hi Ha]].
          rewrite (bind_Ret _ Ha). eexists. split; [reflexivity|].
          split; [|split; [|reflexivity]].
          * change (opacity_of ?s ?k (with_sdk ?f ?y)) with (opacity_of s k y).
            rewrite (opacity_of_with_opacity _ _ "" w ij (kind t) Hi).
            now destruct (kind t).
          * unfold container_ids, with_opacity; cbn. apply update_nth_map_id.
        + pose proof (detachTrack_spec t p w) as Ha.
          destruct (opacity_of (sid p) (kind t) w); [|now elim Ho].
          destruct Ha as [ij [Hi Ha]].
          change (bind (ret tt) ?k0 ?y) with (k0 tt y). cbv beta.
          rewrite (bind_Ret _ Ha). eexists. split; [reflexivity|].
          split; [|split; [|reflexivity]].
          * change (opacity_of ?s ?k (with_sdk ?f ?y)) with (opacity_of s k y).
            rewrite (opacity_of_with_opacity _ _ "0" w ij (kind t) Hi).
            now destruct (kind t).
          * unfold container_ids, with_opacity; cbn. apply update_nth_map_id.
      - exists w. destruct sub; cbn [publication_event listener]; rewrite Hx;
          repeat split; reflexivity. }
    destruct Hstep as [w1 [H1 [Ho1 [Hi1 Hl1]]]].
    assert (Ho1' : opacity_of (sid p) (kind t) w1 <> None).
    { rewrite Ho1. destruct (trackSid publication =? trackSid x); [discriminate|exact Ho]. }
    destruct (IH w1 Ho1') as [w' [H' [Ho' [Hi' Hl']]]].
    exists w'. split; [|split; [|split]].
    + rewrite <- H'. clear - H1.
      unfold bind in *.
      destruct (listener isMobile (OnSubscribed (trackSid x) p)
                  (publication_event sub publication t) w) as [[] wa|]; [|discriminate].
      destruct (listener isMobile (OnUnsubscribed (trackSid x) p)
                  (publication_event sub publication t) wa) as [[] wb|]; [|discriminate].
      cbn in H1. now injection H1 as ->.
    + rewrite Ho', Ho1.
      destruct (trackSid publication =? trackSid x),
               (existsb (fun x0 => trackSid publication =? trackSid x0) pubs);
        reflexivity.
    + congruence.
    + congruence.
Qed.

Lemma fire_publication_event isMobile sub publication t p ls0 pubs w :
  listeners (sdk w) =
    ls0 ++ flat_map (registrations p) pubs ++ [OnTrackPublished p] ->
  forallb (not_on (trackSid publication)) ls0 = true ->
  In publication pubs ->
  opacity_of (sid p) (kind t) w <> None ->
  let w' := fire isMobile (publication_event sub publication t) w in
  opacity_of (sid p) (kind t) w' = Some (if sub then "" else "0") /\
  container_ids w' = container_ids w /\
  listeners (sdk w') = listeners (sdk w).
Proof.
  intros Hl Hall Hin Ho w'. unfold w', fire.
  set (e := publication_event sub publication t).
  assert (Hh : handle isMobile e w = emit isMobile e (sdk_updated e w))
    by (unfold e; destruct sub; reflexivity).
  rewrite Hh. unfold emit.
  change (bind (gets ?f) ?k ?x) with (k (f x) x). cbv beta.
  change (listeners (sdk (sdk_updated e w))) with (listeners (sdk w)).
  rewrite Hl, forEach_app.
  rewrite (bind_Ret _ (forEach_unheard isMobile sub publication t ls0 _ Hall)).
  rewrite forEach_app.
  destruct (forEach_registrations isMobile sub publication t p pubs (sdk_updated e w))
    as [w1 [H1 [Ho1 [Hi1 Hl1]]]]; [exact Ho|].
  fold e in H1. rewrite (bind_Ret _ H1).
  assert (Hlast : forEach [OnTrackPublished p] (fun l => listener isMobile l e) w1
                  = Ret tt w1)
    by (unfold e; destruct sub; reflexivity).
  rewrite Hlast. cbn [world].
  split; [|split].
  - rewrite Ho1.
    assert (Hex : existsb (fun x => trackSid publication =? trackSid x) pubs = true).
    { apply existsb_exists. exists publication. split; [exact Hin|apply String.eqb_refl]. }
    now rewrite Hex.
  - exact Hi1.
  - rewrite Hl1. exact Hl.
Qed.

(** X11. Let a participant whose sid no container has yet, and who carries
    no subscribed data track, connect, in a world where no listener is
    registered on a given publication of that participant.  When that
    publication is later subscribed to with an audio or video track, the
    participant's element of that kind is revealed; when it is then
    unsubscribed from, the element is hidden again; no container is added
    or removed by either event. *)
Theorem later_subscription_reveals_and_hides
    (isMobile : unit -> bool) participant room0 className w0 publication t :
  ~ In (sid participant) (container_ids w0) ->
  forallb media_only (tracks participant) = true ->
  forallb (not_on (trackSid publication)) (listeners (sdk w0)) = true ->
  In publication (tracks participant) ->
  kind t <> datatrack ->
  let w := world (participantConnected participant room0 className w0) in
  let w1 := fire isMobile (Subscribed publication t) w in
  let w2 := fire isMobile (Unsubscribed publication t) w1 in
  opacity_of (sid participant) (kind t) w1 = Some "" /\
  opacity_of (sid participant) (kind t) w2 = Some "0" /\
  container_ids w1 = container_ids w /\
  container_ids w2 = container_ids w.
Proof.
  intros Hs Hall Hno Hin Hk w.
  destruct (forEach_trackPublished participant (tracks participant)
              (world (setupParticipantContainer participant room0 className w0)))
    as [wx [Hx [Hox [Hix Hlx]]]]; try exact Hall.
  { rewrite (setupParticipantContainer_opacity_of _ _ _ _ audio Hs). discriminate. }
  { rewrite (setupParticipantContainer_opacity_of _ _ _ _ video Hs). discriminate. }
  assert (Hw : w = with_sdk (fun s => put_listeners
                               (listeners s ++ [OnTrackPublished participant]) s) wx).
  { unfold w, participantConnected.
    rewrite setupParticipantContainer_Ret in *. cbn [world] in Hx.
    rewrite (bind_Ret _ (setupParticipantContainer_Ret participant room0 className w0)).
    rewrite (bind_Ret _ Hx). reflexivity. }
  assert (Hl : listeners (sdk w) =
               listeners (sdk w0) ++
               flat_map (registrations participant) (tracks participant) ++
               [OnTrackPublished participant]).
  { rewrite Hw. cbn. rewrite Hlx, setupParticipantContainer_Ret. cbn.
    destruct (negb (className =? "local")); cbn; now rewrite <- app_assoc. }
  assert (Ho : opacity_of (sid participant) (kind t) w <> None).
  { rewrite Hw.
    change (opacity_of ?s ?k (with_sdk ?f ?y)) with (opacity_of s k y).
    rewrite Hox, (setupParticipantContainer_opacity_of _ _ _ _ (kind t) Hs).
    destruct (existsb (carries (kind t)) (tracks participant)); [discriminate|].
    destruct (kind t); [discriminate|discriminate|now elim Hk]. }
  destruct (fire_publication_event isMobile true publication t participant
              (listeners (sdk w0)) (tracks participant) w Hl Hno Hin Ho)
    as [Ho1 [Hi1 Hl1]].
  cbn [publication_event] in Ho1, Hi1, Hl1.
  set (w1 := fire isMobile (Subscribed publication t) w) in *.
  assert (Ho1' : opacity_of (sid participant) (kind t) w1 <> None)
    by (rewrite Ho1; discriminate).
  rewrite <- Hl1 in Hl.
  destruct (fire_publication_event isMobile false publication t participant
              (listeners (sdk w0)) (tracks participant) w1 Hl Hno Hin Ho1')
    as [Ho2 [Hi2 _]].
  cbn [publication_event] in Ho2, Hi2.
  repeat split; try assumption. congruence.
Qed.

Lemma later_subscription_reveals_and_hides_witness :
  let publication := {| trackSid := "MT4"; pkind := video; track := None;
                        isTrackEnabled := true |} in
  let t := {| name := 4; kind := video |} in
  let w0 := world (participantConnected alice lobby "local" (initial lobby_route)) in
  let w := world (participantConnected bob lobby "participant" w0) in
  let w1 := fire on_desktop (Subscribed publication t) w in
  let w2 := fire on_desktop (Unsubscribed publication t) w1 in
  opacity_of (sid bob) (kind t) w1 = Some "" /\
  opacity_of (sid bob) (kind t) w2 = Some "0" /\
  container_ids w1 = container_ids w /\
  container_ids w2 = container_ids w.
Proof.
  intros publication t w0.
  apply (later_subscription_reveals_and_hides on_desktop bob lobby "participant"
           w0 publication t).
  - vm_compute. intuition discriminate.
  - reflexivity.
  - vm_compute. reflexivity.
  - right. left. reflexivity.
  - discriminate.
Defined.

(** X12. A publication that carries a subscribed data track stops
    [participantConnected] with a [TypeError]: the participant's container
    has been added and the publications before that one have been handled,
    but the publications after it are not, and the participant's
    [trackPublished] listener is not registered. *)
Theorem data_track_stops_participantConnected
    participant room0 className w before publication after :
  ~ In (sid participant) (container_ids w) ->
  tracks participant = before ++ publication :: after ->
  forallb media_only before = true ->
  carries datatrack publication = true ->
  exists w',
    participantConnected participant room0 className w = Throw TypeError w' /\
    container_ids w' = container_ids w ++ [sid participant] /\
    opacity_of (sid participant) audio w' =
      Some (if existsb (carries audio) before then "" else "0") /\
    opacity_of (sid participant) video w' =
      Some (if existsb (carries video) before then "" else "0") /\
    listeners (sdk w') =
      listeners (sdk w) ++ flat_map (registrations participant) before.
Proof.
  intros Hs Htracks Hall Hdata. unfold participantConnected.
  pose proof (setupParticipantContainer_opacity_of participant room0 className w)
    as Ho.
  pose proof (setupParticipantContainer_Ret participant room0 className w) as Hset.
  match type of Hset with _ = Ret tt ?x => set (w0 := x) in * end.
  rewrite Hset in Ho. cbn [world] in Ho.
  rewrite (bind_Ret _ Hset), Htracks.
  destruct (forEach_trackPublished participant before w0)
    as [w1 [H1 [Ho1 [Hi1 Hl1]]]]; try exact Hall.
  { rewrite (Ho audio Hs). discriminate. }
  { rewrite (Ho video Hs). discriminate. }
  assert (Hthrow : trackPublished publication participant w1 = Throw TypeError w1).
  { unfold trackPublished. unfold carries in Hdata.
    destruct (track publication) as [t|]; [|discriminate].
    assert (Hk : kind t = datatrack) by (destruct (kind t); [discriminate|discriminate|reflexivity]).
    pose proof (attachTrack_spec t participant w1) as Ha.
    rewrite Hk, Ho1, (Ho datatrack Hs) in Ha.
    assert (Hnone : existsb (carries datatrack) before = false).
    { clear - Hall. induction before as [|x l IH]; [reflexivity|].
      cbn in *. apply andb_prop in Hall as [Hx Hall].
      unfold media_only in Hx. apply negb_true_iff in Hx. now rewrite Hx, IH. }
    rewrite Hnone in Ha. unfold bind. now rewrite Ha. }
  exists w1. split.
  - assert (Hloop : forEach (before ++ publication :: after)
                      (fun x => trackPublished x participant) w0
                    = Throw TypeError w1).
    { rewrite forEach_app, (bind_Ret _ H1). cbn [forEach].
      unfold bind. now rewrite Hthrow. }
    unfold bind. now rewrite Hloop.
  - split; [|split; [|split]].
    + rewrite Hi1. unfold w0, container_ids. cbn.
      destruct (negb (className =? "local")); cbn; now rewrite map_app.
    + rewrite Ho1, (Ho audio Hs). now destruct (existsb (carries audio) before).
    + rewrite Ho1, (Ho video Hs). now destruct (existsb (carries video) before).
    + rewrite Hl1. unfold w0.
      destruct (negb (className =? "local")); reflexivity.
Qed.

Lemma data_track_stops_participantConnected_witness :
  let chat_track := {| trackSid := "MT5"; pkind := datatrack;
                       track := Some {| name := 5; kind := datatrack |};
                       isTrackEnabled := true |} in
  let dave := {| obj := 3; identity := "dave"; sid := "PA4";
                 tracks := [mic] ++ chat_track :: [cam] |} in
  exists w',
    participantConnected dave lobby "participant" (initial lobby_route)
      = Throw TypeError w' /\
    container_ids w' = container_ids (initial lobby_route) ++ [sid dave] /\
    opacity_of (sid dave) audio w' =
      Some (if existsb (carries audio) [mic] then "" else "0") /\
    opacity_of (sid dave) video w' =
      Some (if existsb (carries video) [mic] then "" else "0") /\
    listeners (sdk w') =
      listeners (sdk (initial lobby_route)) ++ flat_map (registrations dave) [mic].
Proof.
  intros chat_track dave.
  apply (data_track_stops_participantConnected dave lobby "participant"
           (initial lobby_route) [mic] chat_track [cam]).
  - intros [].
  - reflexivity.
  - reflexivity.
  - reflexivity.
Defined.

(* ===================================================================== *)
(** * Further properties: tracks published later *)
(* ===================================================================== *)

Lemma forEach_silent isMobile e ls : forall w,
  Forall (fun l => forall x, listener isMobile l e x = Ret tt x) ls ->
  forEach ls (fun l => listener isMobile l e) w = Ret tt w.
Proof.
  induction ls as [|l ls IH]; intros w Hall; [reflexivity|].
  inversion Hall as [|? ? Hl Hls]; subst.
  cbn [forEach]. rewrite (bind_Ret _ (Hl w)). now apply IH.
Qed.

(** X13. Let a participant whose sid no container has yet, and who carries
    no subscribed data track, connect, in a world where no
    [trackPublished] listener is registered on that participant's object.
    When the participant later publishes a publication that carries no
    data track, the page handles it as it handles the publications
    present at connection: the element of the kind of its subscribed
    track, if it has one, is revealed, the other elements stay as they
    are, a [subscribed] and an [unsubscribed] listener are registered on
    it, and no container is added or removed. *)
Theorem later_publication_is_handled
    (isMobile : unit -> bool) participant room0 className w0 publication :
  ~ In (sid participant) (container_ids w0) ->
  forallb media_only (tracks participant) = true ->
  forallb (not_emitter (obj participant)) (listeners (sdk w0)) = true ->
  media_only publication = true ->
  let w := world (participantConnected participant room0 className w0) in
  let w' := fire isMobile (TrackPublished participant publication) w in
  (forall k, opacity_of (sid participant) k w' =
             if carries k publication then Some ""
             else opacity_of (sid participant) k w) /\
  listeners (sdk w') = listeners (sdk w) ++ registrations participant publication /\
  container_ids w' = container_ids w.
Proof.
  intros Hs Hall Hno Hpub w.
  destruct (forEach_trackPublished participant (tracks participant)
              (world (setupParticipantContainer participant room0 className w0)))
    as [wx [Hx [Hox [Hix Hlx]]]]; try exact Hall.
  { rewrite (setupParticipantContainer_opacity_of _ _ _ _ audio Hs). discriminate. }
  { rewrite (setupParticipantContainer_opacity_of _ _ _ _ video Hs). discriminate. }
  assert (Hw : w = with_sdk (fun s => put_listeners
                               (listeners s ++ [OnTrackPublished participant]) s) wx).
  { unfold w, participantConnected.
    rewrite setupParticipantContainer_Ret in *. cbn [world] in Hx.
    rewrite (bind_Ret _ (setupParticipantContainer_Ret participant room0 className w0)).
    rewrite (bind_Ret _ Hx). reflexivity. }
  assert (Hl : listeners (sdk w) =
               (listeners (sdk w0) ++
                flat_map (registrations participant) (tracks participant)) ++
               [OnTrackPublished participant]).
  { rewrite Hw. cbn. rewrite Hlx, setupParticipantContainer_Ret. cbn.
    destruct (negb (className =? "local")); reflexivity. }
  assert (Ho : forall k, k <> datatrack ->
                 opacity_of (sid participant) k w <> None).
  { intros k Hk. rewrite Hw.
    change (opacity_of ?s ?k0 (with_sdk ?f ?y)) with (opacity_of s k0 y).
    rewrite Hox, (setupParticipantContainer_opacity_of _ _ _ _ k Hs).
    destruct (existsb (carries k) (tracks participant)); [discriminate|].
    destruct k; [discriminate|discriminate|now elim Hk]. }
  set (e := TrackPublished participant publication).
  assert (Hsilent : forEach
            (listeners (sdk w0) ++
             flat_map (registrations participant) (tracks participant))
            (fun l => listener isMobile l e) (sdk_updated e w)
          = Ret tt (sdk_updated e w)).
  { apply forEach_silent. apply Forall_app. split.
    - clear - Hno. induction (listeners (sdk w0)) as [|l ls IH]; [constructor|].
      cbn [forallb] in Hno. apply andb_prop in Hno as [Hl Hno].
      constructor; [|now apply IH].
      intros x. destruct l; try reflexivity.
      cbn in *. apply negb_true_iff in Hl. now rewrite Hl.
    - clear. induction (tracks participant) as [|p ps IH]; [constructor|].
      cbn [flat_map registrations app].
      constructor; [intros x; reflexivity|].
      constructor; [intros x; reflexivity|exact IH]. }
  destruct (trackPublished_spec publication participant (sdk_updated e w))
    as [w1 [H1 [Ho1 [Hi1 Hl1]]]].
  { intros t Ht.
    change (opacity_of ?s ?k0 (sdk_updated e w)) with (opacity_of s k0 w).
    apply Ho. intros Hk. unfold media_only, carries in Hpub.
    rewrite Ht, Hk in Hpub. discriminate. }
  assert (Hfire : fire isMobile e w = w1).
  { unfold fire.
    change (handle isMobile e w) with (emit isMobile e (sdk_updated e w)).
    unfold emit.
    change (bind (gets ?f) ?k ?x) with (k (f x) x). cbv beta.
    change (listeners (sdk (sdk_updated e w))) with (listeners (sdk w)).
    rewrite Hl, forEach_app, (bind_Ret _ Hsilent).
    cbn [forEach]. rewrite bind_ret_tt.
    unfold e. cbn [listener]. rewrite Nat.eqb_refl.
    fold e. now rewrite H1. }
  cbv zeta. rewrite Hfire.
  split; [exact Ho1|]. split; [|exact Hi1].
  rewrite Hl1. reflexivity.
Qed.

Lemma later_publication_is_handled_witness :
  let publication := {| trackSid := "MT6"; pkind := video;
                        track := Some {| name := 6; kind := video |};
                        isTrackEnabled := true |} in
  let w0 := world (participantConnected alice lobby "local" (initial lobby_route)) in
  let w := world (participantConnected bob lobby "participant" w0) in
  let w' := fire on_desktop (TrackPublished bob publication) w in
  (forall k, opacity_of (sid bob) k w' =
             if carries k publication then Some ""
             else opacity_of (sid bob) k w) /\
  listeners (sdk w') = listeners (sdk w) ++ registrations bob publication /\
  container_ids w' = container_ids w.
Proof.
  intros publication w0.
  apply (later_publication_is_handled on_desktop bob lobby "participant" w0
           publication).
  - vm_compute. intuition discriminate.
  - reflexivity.
  - vm_compute. reflexivity.
  - reflexivity.
Defined.

(* ===================================================================== *)
(** * Further properties: after the room has disconnected *)
(* ===================================================================== *)

Lemma no_room_event_no_disconnected es :
  no_room_event es = true -> no_disconnected es = true.
Proof.
  induction es as [|e es IH]; [reflexivity|].
  destruct e; cbn; intros H; try discriminate; now apply IH.
Qed.

Lemma sdk_trace_after_disconnected es : forall sids error es',
  sdk_trace sids (es ++ RoomDisconnected error :: es') = true ->
  no_room_event es' = true.
Proof.
  induction es as [|e es IH]; intros sids error es' Htrace.
  - exact Htrace.
  - destruct e; cbn [app sdk_trace] in Htrace;
      try (now apply (IH _ _ _ Htrace)).
    + apply andb_prop in Htrace as [_ Htrace]. now apply (IH _ _ _ Htrace).
    + apply andb_prop in Htrace as [_ Htrace]. now apply (IH _ _ _ Htrace).
    + exfalso. clear - Htrace.
      induction es as [|e es IH]; cbn in Htrace; [discriminate|].
      destruct e; try discriminate; auto.
Qed.

(** X14. After a session that [createChat] set up has seen the room's
    [disconnected] event, and whatever other events of the page followed,
    the [beforeunload], [pagehide] and [visibilitychange] events leave
    the world exactly as it is: leaving or hiding the page no longer
    calls [room.disconnect()] and no longer stops, unpublishes or creates
    a track. *)
Theorem after_disconnected_page_events_do_nothing
    (isMobile : unit -> bool) route room0 connectOptions w es error es' hidden :
  createChat isMobile (inr room0) connectOptions (initial route) = Ret tt w ->
  sdk_room room0 ->
  sdk_trace (room_sids room0) (es ++ RoomDisconnected error :: es') = true ->
  let w' := run isMobile (es ++ RoomDisconnected error :: es') w in
  fire isMobile Beforeunload w' = w' /\
  fire isMobile Pagehide w' = w' /\
  fire isMobile (Visibilitychange hidden) w' = w'.
Proof.
  intros Hc Hroom Htrace w'.
  pose proof (createChat_live isMobile route room0 connectOptions w Hc Hroom) as Hlive.
  destruct (sdk_trace_before_disconnected es _ error es' Htrace) as [Ht1 Hno].
  pose proof (live_run isMobile es _ w Hlive Ht1 Hno) as Hlive1.
  destruct (fire_disconnected isMobile error _ _ Hlive1)
    as [mid [t [_ [_ [Hh [_ [_ Hfire]]]]]]].
  pose proof (sdk_trace_after_disconnected es _ error es' Htrace) as Hquiet.
  destruct (handlers_stay isMobile es'
              (fire isMobile (RoomDisconnected error) (run isMobile es w))
              (no_room_event_no_disconnected es' Hquiet)) as [Hstay _].
  assert (Hoff : the_handlers w' = (None, None, None)).
  { unfold w'. rewrite run_app, run_cons, Hstay, Hfire. exact Hh. }
  unfold the_handlers in Hoff. injection Hoff as H1 H2 H3.
  repeat split; unfold fire, handle;
    change (bind (gets ?f) ?k ?x) with (k (f x) x); cbv beta;
    rewrite ?H1, ?H2, ?H3; reflexivity.
Qed.

Lemma after_disconnected_page_events_do_nothing_witness :
  let w := world (createChat on_phone (inr lobby) lobby_options (initial lobby_route)) in
  let w' := run on_phone
              ([RoomParticipantConnected carol] ++
               RoomDisconnected None :: [ClickToggleMute]) w in
  fire on_phone Beforeunload w' = w' /\
  fire on_phone Pagehide w' = w' /\
  fire on_phone (Visibilitychange true) w' = w'.
Proof.
  intros w.
  apply (after_disconnected_page_events_do_nothing on_phone lobby_route lobby
           lobby_options w [RoomParticipantConnected carol] None
           [ClickToggleMute] true).
  - vm_compute. reflexivity.
  - split; [|repeat constructor; discriminate].
    repeat constructor; simpl; intuition discriminate.
  - vm_compute. reflexivity.
Defined.
